(** * Cluster visualization: topology construction, detail panel and
      snapshot aggregation

    Shallow embedding of the React frontend of the cluster-visualization
    tool (frontend/src/types.ts, api.ts, components/ClusterTopology.tsx,
    components/NodeDetail.tsx) together with a model of the Python
    aggregation backend, whose sources (cluster_analyzer.py, api.py) are
    only described by the design document. *)

From stdpp Require Import base strings list gmap pretty.
From Stdlib Require Import Lia ZArith.

Open Scope string_scope.
Open Scope list_scope.

(** ** Data model (frontend/src/types.ts) *)

Record NodeAddress := {
  addr_type : string;     (* field [type] *)
  addr_address : string;  (* field [address] *)
}.

Record NodeInfo := {
  os : string;
  architecture : string;
  kernel : string;
  container_runtime : string;
  kubelet_version : string;
}.

Record ResourceInfo := {
  cpu : string;
  memory : string;
  pods : option string;   (* [pods?: string] *)
}.

Record NodeMetrics := {
  metrics_cpu : string;
  metrics_memory : string;
}.

Record Container := {
  container_name : string;
  image : string;
  ready : bool;
}.

Record Pod := {
  pod_name : string;
  pod_namespace : string;
  pod_uid : string;
  pod_node : string;      (* field [node]: owning node name, may be empty *)
  pod_status : string;
  ip : string;
  pod_labels : gmap string string;
  containers : list Container;
  restart_count : Z;
}.

Record Node := {
  name : string;
  uid : string;
  labels : gmap string string;
  role : string;
  status : string;
  capacity : ResourceInfo;
  allocatable : ResourceInfo;
  info : NodeInfo;
  addresses : list NodeAddress;
  pods_on_node : Z;                  (* a [number] holding an integer count *)
  metrics : option NodeMetrics;      (* [metrics?: NodeMetrics] *)
  pods_details : option (list Pod);  (* [pods_details?: Pod[]] *)
}.

(** ** JavaScript helpers used by the components *)

(** [Array.prototype.push] on the accumulator threaded through a loop. *)
Definition push {A} (arr : list A) (x : A) : list A := arr ++ [x].

(** [arr.forEach(body)] where [body] mutates a captured accumulator. *)
Definition forEach {A St} (arr : list A) (body : St → A → St) (s : St) : St :=
  fold_left body arr s.
Global Arguments forEach : simpl never.

(** [for (let i = start; i < start + count; i++) body], where the body may
    throw ([None]). *)
Fixpoint forRange {St} (i count : nat) (body : nat → St → option St) (s : St)
  : option St :=
  match count with
  | O => Some s
  | S c => match body i s with
           | Some s' => forRange (S i) c body s'
           | None => None
           end
  end.

(** [String.prototype.toUpperCase], restricted to the ASCII letters. *)
Definition upper_ascii (c : Ascii.ascii) : Ascii.ascii :=
  let n := Ascii.nat_of_ascii c in
  if (97 <=? n)%nat && (n <=? 122)%nat then Ascii.ascii_of_nat (n - 32) else c.

Fixpoint toUpperCase (s : string) : string :=
  match s with
  | EmptyString => EmptyString
  | String c s' => String (upper_ascii c) (toUpperCase s')
  end.

(** The line break of the template literals. *)
Definition newline : string := String (Ascii.ascii_of_nat 10) EmptyString.

(** Truthiness of a [string | null] value: [null] and [''] are falsy. *)
Definition truthy (v : option string) : bool :=
  match v with
  | Some s => negb (String.eqb s "")
  | None => false
  end.

(** A value caught by [catch (err)]: an [Error] instance with its message,
    or anything else. *)
Inductive Thrown :=
  | ErrorObject (message : string)
  | OtherValue.

(** ** Topology graph construction (components/ClusterTopology.tsx) *)

Inductive SmoothType := CubicBezier | Continuous.

Record VisNode := {
  id : string;
  label : string;
  background : string;
  border : string;
  highlight_background : string;
  level : nat;
}.

Record VisEdge := {
  from : string;
  to : string;
  smooth : SmoothType;
}.

Record Network := {
  network_nodes : list VisNode;
  network_edges : list VisEdge;
}.

Definition masterNodes (nodes : list Node) : list Node :=
  filter (λ n, role n = "master") nodes.

Definition workerNodes (nodes : list Node) : list Node :=
  filter (λ n, role n = "worker") nodes.

Definition visNode (node : Node) : VisNode :=
  let isMaster := bool_decide (role node = "master") in
  let isReady := bool_decide (status node = "Ready") in
  {| id := name node;
     label := name node +:+ newline +:+ toUpperCase (role node) +:+ newline
              +:+ pretty (pods_on_node node) +:+ " pods";
     background :=
       if isMaster then (if isReady then "#2196f3" else "#f44336")
       else (if isReady then "#4caf50" else "#f44336");
     border :=
       if isMaster then (if isReady then "#1565c0" else "#c62828")
       else (if isReady then "#2e7d32" else "#c62828");
     highlight_background := if isMaster then "#42a5f5" else "#66bb6a";
     level := if isMaster then 0 else 1 |}.

Definition visNodes (nodes : list Node) : list VisNode := visNode <$> nodes.

Definition masterEdge (master worker : Node) : VisEdge :=
  {| from := name master; to := name worker; smooth := CubicBezier |}.

Definition chainEdge (a b : Node) : VisEdge :=
  {| from := name a; to := name b; smooth := Continuous |}.

(** The chain loop reads [workerNodes[i]] and [workerNodes[i + 1]]; reading
    [.name] of an element out of range would throw a TypeError ([None]). *)
Definition chainBody (workers : list Node) (i : nat) (visEdges : list VisEdge)
  : option (list VisEdge) :=
  match workers !! i, workers !! (i + 1) with
  | Some a, Some b => Some (push visEdges (chainEdge a b))
  | _, _ => None
  end.

Definition visEdges (nodes : list Node) : option (list VisEdge) :=
  let masters := masterNodes nodes in
  let workers := workerNodes nodes in
  let visEdges : list VisEdge := [] in
  if bool_decide (0 < length masters) && bool_decide (0 < length workers) then
    Some (forEach masters (λ acc master,
            forEach workers (λ acc worker, push acc (masterEdge master worker)) acc)
          visEdges)
  else if bool_decide (length masters = 0) && bool_decide (1 < length workers) then
    forRange 0 (length workers - 1) (chainBody workers) visEdges
  else Some visEdges.

(** Outcome of one run of the network-creating effect. *)
Inductive EffectResult :=
  | Skipped                     (* early return: no container or no nodes *)
  | Created (network : Network)
  | Threw.                      (* an exception escaped the effect *)

(** [new Network(container, { nodes, edges }, options)]: vis-network keeps
    the vertices in a data set keyed by [id], and adding a vertex whose id
    is already present throws ([None]).  The edges carry no id of their
    own, so repeated edges are accepted. *)
Definition newNetwork (vs : list VisNode) (es : list VisEdge) : option Network :=
  if bool_decide (NoDup (id <$> vs))
  then Some {| network_nodes := vs; network_edges := es |}
  else None.

Definition createNetwork (hasContainer : bool) (nodes : list Node) : EffectResult :=
  if negb hasContainer || bool_decide (length nodes = 0) then Skipped
  else
    let vs := visNodes nodes in
    match visEdges nodes with
    | Some es =>
        match newNetwork vs es with
        | Some network => Created network
        | None => Threw
        end
    | None => Threw
    end.

Global Instance SmoothType_eq_dec : EqDecision SmoothType.
Proof. solve_decision. Defined.

Global Instance VisNode_eq_dec : EqDecision VisNode.
Proof. solve_decision. Defined.

Global Instance VisEdge_eq_dec : EqDecision VisEdge.
Proof. solve_decision. Defined.

Global Instance Network_eq_dec : EqDecision Network.
Proof. solve_decision. Defined.






(** The edge rule as a list comprehension: every master paired with every
    worker, masters outermost. *)
Definition masterWorkerEdges (masters workers : list Node) : list VisEdge :=
  masters ≫= (λ master, masterEdge master <$> workers).

(** The chain over consecutive elements of a list. *)
Fixpoint chainOf (ws : list Node) : list VisEdge :=
  match ws with
  | a :: rest =>
      match rest with
      | b :: _ => chainEdge a b :: chainOf rest
      | [] => []
      end
  | [] => []
  end.

(** The two endpoint names of an edge, and incidence of an edge to the
    vertex with a given id. *)
Definition endpoints (e : VisEdge) : string * string := (from e, to e).

Definition incident (v : string) (e : VisEdge) : Prop := from e = v ∨ to e = v.

(** *** The component's state and loader ([loadClusterData]) *)

Module Topology.

Record State := {
  loading : bool;
  error : option string;
  nodes : list Node;
  refreshing : bool;
}.

(** The [useState] initial values. *)
Definition initial : State :=
  {| loading := true; error := None; nodes := []; refreshing := false |}.

(** Settlement of [await fetchNodes()]. *)
Inductive Outcome :=
  | Resolved (nodeData : list Node)
  | Rejected (err : Thrown).

(** [setRefreshing(true); setError(null);] before the [await]. *)
Definition loadClusterData_start (s : State) : State :=
  {| loading := loading s; error := None; nodes := nodes s; refreshing := true |}.

(** The [try]/[catch] branch taken once the request settles, followed by
    the [finally] block. *)
Definition loadClusterData_settle (s : State) (o : Outcome) : State :=
  let s1 :=
    match o with
    | Resolved nodeData =>
        {| loading := loading s; error := error s; nodes := nodeData;
           refreshing := refreshing s |}
    | Rejected err =>
        {| loading := loading s;
           error := Some (match err with
                          | ErrorObject message => message
                          | OtherValue => "Failed to load cluster data"
                          end);
           nodes := nodes s; refreshing := refreshing s |}
    end in
  {| loading := false; error := error s1; nodes := nodes s1; refreshing := false |}.

Definition loadClusterData (s : State) (o : Outcome) : State :=
  loadClusterData_settle (loadClusterData_start s) o.

Record InfoBar := {
  total_nodes : nat;
  masters : nat;
  workers : nat;
  ready_nodes : nat;
  not_ready_nodes : nat;
  total_pods : option Z;
  refresh_disabled : bool;
}.

(** JavaScript numbers are doubles: integers of magnitude up to 2^53 are
    represented exactly, and so is a sum of two of them that stays in this
    range. *)
Definition safeInteger (z : Z) : bool := (Z.abs z <=? 2 ^ 53)%Z.

(** [sum + n] on numbers holding integers.  Within the exact range the
    result is the integer sum; outside it the double is rounded, which is
    not modelled: the result is then left undetermined ([None]). *)
Definition addNumber (sum : option Z) (n : Z) : option Z :=
  match sum with
  | Some a =>
      if safeInteger a && safeInteger n && safeInteger (a + n)
      then Some (a + n)%Z else None
  | None => None
  end.

(** What the component returns: the three early returns, or the
    topology view with its info bar and the network canvas. *)
Inductive View :=
  | LoadingView
  | ErrorView (msg : string)
  | EmptyView
  | TopologyView (bar : InfoBar).

Definition infoBar (s : State) : InfoBar :=
  {| total_nodes := length (nodes s);
     masters := length (filter (λ n, role n = "master") (nodes s));
     workers := length (filter (λ n, role n = "worker") (nodes s));
     ready_nodes := length (filter (λ n, status n = "Ready") (nodes s));
     not_ready_nodes := length (filter (λ n, status n ≠ "Ready") (nodes s));
     total_pods := fold_left (λ sum n, addNumber sum (pods_on_node n)) (nodes s)
                             (Some 0%Z);
     refresh_disabled := refreshing s |}.

Definition render (s : State) : View :=
  if loading s then LoadingView
  else if truthy (error s) then ErrorView (default "" (error s))
  else if bool_decide (length (nodes s) = 0) then EmptyView
  else TopologyView (infoBar s).

(** The node list a view puts on screen. *)
Definition rendersNodes (v : View) : bool :=
  match v with
  | TopologyView _ => true
  | _ => false
  end.

End Topology.

(** ** The node detail panel (components/NodeDetail.tsx) *)

Module Detail.

Record State := {
  node : option Node;
  loading : bool;
  error : option string;
}.

Definition initial : State :=
  {| node := None; loading := false; error := None |}.

Inductive Outcome :=
  | Resolved (data : Node)
  | Rejected (err : Thrown).

(** [setLoading(true); setError(null);] at the start of
    [loadNodeDetails]. *)
Definition loadNodeDetails_start (s : State) : State :=
  {| node := node s; loading := true; error := None |}.

(** [try]/[catch] after the [await], then [finally]. *)
Definition loadNodeDetails_settle (s : State) (o : Outcome) : State :=
  let s1 :=
    match o with
    | Resolved data => {| node := Some data; loading := loading s; error := error s |}
    | Rejected err =>
        {| node := node s; loading := loading s;
           error := Some (match err with
                          | ErrorObject message => message
                          | OtherValue => "Failed to load node details"
                          end) |}
    end in
  {| node := node s1; loading := false; error := error s1 |}.

(** The effect run when the [nodeName] prop changes: it either clears the
    stored node, or starts a request for [nodeName]. *)
Definition onNodeName (nodeName : option string) (s : State) : State :=
  if negb (truthy nodeName) then
    {| node := None; loading := loading s; error := error s |}
  else loadNodeDetails_start s.

(** Events of the panel: a new [nodeName] prop, or the settlement of a
    pending request. *)
Inductive Event :=
  | Select (nodeName : option string)
  | Settle (o : Outcome).

Definition step (s : State) (e : Event) : State :=
  match e with
  | Select nodeName => onNodeName nodeName s
  | Settle o => loadNodeDetails_settle s o
  end.

Definition run (s : State) (es : list Event) : State := fold_left step es s.

Record PodItem := {
  item_name : string;
  item_status : string;
  item_namespace : string;
  item_ip : string;
  item_restarts : Z;
  item_containers : list (string * bool);
}.

Record Content := {
  general_name : string;
  general_role : string;
  general_role_color : string;
  general_status : string;
  general_pods : Z;
  system_info : NodeInfo;
  capacity_row : ResourceInfo;
  allocatable_row : ResourceInfo;
  usage_row : option (string * string);
  address_rows : list (string * string);
  labels_section : option (gmap string string);
  pods_section : option (list PodItem);
}.

Record Panel := {
  loading_banner : bool;
  error_banner : option string;
  content : option Content;
}.

Definition podItem (pod : Pod) : PodItem :=
  {| item_name := pod_name pod;
     item_status := pod_status pod;
     item_namespace := pod_namespace pod;
     item_ip := if String.eqb (ip pod) "" then "N/A" else ip pod;
     item_restarts := restart_count pod;
     item_containers := (λ c, (container_name c, ready c)) <$> containers pod |}.

Definition nodeContent (n : Node) : Content :=
  {| general_name := name n;
     general_role := toUpperCase (role n);
     general_role_color :=
       if bool_decide (role n = "master") then "#2196f3" else "#4caf50";
     general_status := status n;
     general_pods := pods_on_node n;
     system_info := info n;
     capacity_row := capacity n;
     allocatable_row := allocatable n;
     usage_row :=
       match metrics n with
       | Some m => Some (metrics_cpu m, metrics_memory m)
       | None => None
       end;
     address_rows := (λ a, (addr_type a, addr_address a)) <$> addresses n;
     labels_section :=
       if bool_decide (0 < size (labels n)) then Some (labels n) else None;
     pods_section :=
       match pods_details n with
       | Some ps => if bool_decide (0 < length ps) then Some (podItem <$> ps) else None
       | None => None
       end |}.

(** [None] is the [return null] taken when [nodeName] is falsy. *)
Definition render (nodeName : option string) (s : State) : option Panel :=
  if negb (truthy nodeName) then None
  else Some {| loading_banner := loading s;
               error_banner := if truthy (error s) then error s else None;
               content := nodeContent <$> node s |}.

End Detail.

(** ** Remaining resource summaries (frontend/src/types.ts) *)

Record Namespace := {
  ns_name : string;
  ns_uid : string;
  ns_status : string;
  ns_labels : gmap string string;
  creation_timestamp : option string;
}.

Record Deployment := {
  dep_name : string;
  dep_namespace : string;
  dep_uid : string;
  replicas : Z;
  available_replicas : Z;
  ready_replicas : Z;
  dep_labels : gmap string string;
}.

Record ServicePort := {
  port : Z;
  target_port : string;
  protocol : string;
}.

Record Service := {
  svc_name : string;
  svc_namespace : string;
  svc_uid : string;
  svc_type : string;
  cluster_ip : string;
  ports : list ServicePort;
  svc_labels : gmap string string;
  selector : gmap string string;
}.

Record ClusterData := {
  cluster_nodes : list Node;
  cluster_namespaces : list Namespace;
  cluster_pods : list Pod;
  cluster_deployments : list Deployment;
  cluster_services : list Service;
}.

(** ** The aggregation backend

    The backend (cluster_analyzer.py, api.py) is not part of the sources at
    hand; its components are modelled from the design document, sections
    4.1 to 4.6 and 7. *)

Module Backend.

(** Modelled from the spec: the closed two-variant role enum of the Role
    Classifier (section 9). *)
Inductive Role := master | worker.

(** Modelled from the spec: the role as it is exposed in [Node.role]. *)
Definition roleString (r : Role) : string :=
  match r with
  | master => "master"
  | worker => "worker"
  end.

(** Modelled from the spec: [ClassifyRole(labels)] of section 4.2, over a
    configurable collection of control-plane marker keys: presence of any
    marker key, whatever its value, gives [master]; absence, [worker]. *)
Definition ClassifyRole (markers : list string) (labels : gmap string string)
  : Role :=
  if existsb (λ key, bool_decide (is_Some (labels !! key))) markers
  then master else worker.

(** Modelled from the spec: the normalized node a node fetcher produces
    from the gateway's raw object, before role, pod count and metrics
    are derived. *)
Record FetchedNode := {
  fetched_name : string;
  fetched_uid : string;
  fetched_labels : gmap string string;
  fetched_status : string;
  fetched_capacity : ResourceInfo;
  fetched_allocatable : ResourceInfo;
  fetched_info : NodeInfo;
  fetched_addresses : list NodeAddress;
}.

(** Modelled from the spec: the owning node of a pod; an empty owning-node
    name means the pod is unscheduled and has no owner (section 3). *)
Definition owner (p : Pod) : option string :=
  if bool_decide (pod_node p = "") then None else Some (pod_node p).

(** Modelled from the spec: [IndexPods(pods)] of section 4.4, grouping the
    pods by owning node, in list order, and counting them; pods without
    an owning node are left out of both maps. *)
Definition IndexPods (pods : list Pod)
  : gmap string (list Pod) * gmap string nat :=
  foldr (λ p acc,
           match owner p with
           | None => acc
           | Some n =>
               (<[n := p :: default [] (acc.1 !! n)]> acc.1,
                <[n := S (default 0 (acc.2 !! n))]> acc.2)
           end)
        (∅, ∅) pods.

(** Modelled from the spec: the Node record assembled for a fetched node,
    with the classified role and the indexer's pod count; metrics and pod
    details start unset. *)
Definition assembleNode (markers : list string) (countByNode : gmap string nat)
    (f : FetchedNode) : Node :=
  {| name := fetched_name f;
     uid := fetched_uid f;
     labels := fetched_labels f;
     role := roleString (ClassifyRole markers (fetched_labels f));
     status := fetched_status f;
     capacity := fetched_capacity f;
     allocatable := fetched_allocatable f;
     info := fetched_info f;
     addresses := fetched_addresses f;
     pods_on_node := Z.of_nat (default 0 (countByNode !! fetched_name f));
     metrics := None;
     pods_details := None |}.

Definition with_metrics (n : Node) (m : option NodeMetrics) : Node :=
  {| name := name n; uid := uid n; labels := labels n; role := role n;
     status := status n; capacity := capacity n; allocatable := allocatable n;
     info := info n; addresses := addresses n; pods_on_node := pods_on_node n;
     metrics := m; pods_details := pods_details n |}.

Definition with_pods_details (n : Node) (ps : option (list Pod)) : Node :=
  {| name := name n; uid := uid n; labels := labels n; role := role n;
     status := status n; capacity := capacity n; allocatable := allocatable n;
     info := info n; addresses := addresses n; pods_on_node := pods_on_node n;
     metrics := metrics n; pods_details := ps |}.

(** Modelled from the spec: [MergeMetrics(nodes, metricsByNode)] of
    section 4.3: a metrics entry under the node's name is attached,
    otherwise the optional field is left unset. *)
Definition MergeMetrics (nodes : list Node) (metricsByNode : gmap string NodeMetrics)
  : list Node :=
  (λ n, match metricsByNode !! name n with
        | Some m => with_metrics n (Some m)
        | None => n
        end) <$> nodes.

(** Modelled from the spec: the outcome of one resource fetcher, a
    normalized collection or a failure with its cause. *)
Inductive Fetch (A : Type) :=
  | Fetched (items : A)
  | FetchFailed (cause : string).
Arguments Fetched {A} items.
Arguments FetchFailed {A} cause.

Inductive ResourceKind :=
  | KNodes | KPods | KNamespaces | KDeployments | KServices.

(** Modelled from the spec: [PartialFailure{kind, cause}]. *)
Record PartialFailure := {
  kind : ResourceKind;
  cause : string;
}.

(** Modelled from the spec: the result slots collected at the join
    barrier of [BuildSnapshot] (section 5): the five resource fetches and
    the best-effort metrics fetch. *)
Record FetchResults := {
  nodes_fetch : Fetch (list FetchedNode);
  pods_fetch : Fetch (list Pod);
  namespaces_fetch : Fetch (list Namespace);
  deployments_fetch : Fetch (list Deployment);
  services_fetch : Fetch (list Service);
  metrics_fetch : Fetch (gmap string NodeMetrics);
}.

(** The collection a fetch contributes: empty when the fetch failed. *)
Definition collection {A} (f : Fetch (list A)) : list A :=
  match f with
  | Fetched items => items
  | FetchFailed _ => []
  end.

Definition failure {A} (k : ResourceKind) (f : Fetch A) : list PartialFailure :=
  match f with
  | Fetched _ => []
  | FetchFailed c => [{| kind := k; cause := c |}]
  end.

Definition failures (r : FetchResults) : list PartialFailure :=
  failure KNodes (nodes_fetch r) ++ failure KPods (pods_fetch r)
  ++ failure KNamespaces (namespaces_fetch r)
  ++ failure KDeployments (deployments_fetch r)
  ++ failure KServices (services_fetch r).

(** A failed or absent metrics source degrades to the empty mapping. *)
Definition metricsByNode (r : FetchResults) : gmap string NodeMetrics :=
  match metrics_fetch r with
  | Fetched m => m
  | FetchFailed _ => ∅
  end.

Inductive SnapshotResult :=
  | SnapshotOk (snapshot : ClusterData) (warnings : list PartialFailure)
  | AggregationFailed (causes : list string).

(** Modelled from the spec: [BuildSnapshot] of section 4.1, the
    single-threaded merge after all fetches completed or failed: it fails
    only when all five resource fetches failed, and otherwise assembles
    the snapshot with an empty collection for every failed kind. *)
Definition BuildSnapshot (markers : list string) (r : FetchResults)
  : SnapshotResult :=
  let fs := failures r in
  if bool_decide (length fs = 5) then AggregationFailed (cause <$> fs)
  else
    let pods := collection (pods_fetch r) in
    let countByNode := (IndexPods pods).2 in
    let nodes := MergeMetrics (assembleNode markers countByNode
                                 <$> collection (nodes_fetch r))
                              (metricsByNode r) in
    SnapshotOk {| cluster_nodes := nodes;
                  cluster_namespaces := collection (namespaces_fetch r);
                  cluster_pods := pods;
                  cluster_deployments := collection (deployments_fetch r);
                  cluster_services := collection (services_fetch r) |}
               fs.

Inductive DetailResult :=
  | Found (detail : Node)
  | NotFound.

(** Modelled from the spec: [ResolveNodeDetail(snapshot, nodeName)] of
    section 4.6: the node's record plus the pods grouped under its name
    by the Pod Indexer, or [NotFound]. *)
Definition ResolveNodeDetail (snapshot : ClusterData) (nodeName : string)
  : DetailResult :=
  match list_find (λ n, name n = nodeName) (cluster_nodes snapshot) with
  | Some (_, n) =>
      Found (with_pods_details n
               (Some (default [] ((IndexPods (cluster_pods snapshot)).1 !! nodeName))))
  | None => NotFound
  end.

(** Modelled from the spec: the route [get single node detail by name
    (404-equivalent if absent)] as seen through [fetchNodeDetails] of
    api.ts, whose request rejects on a status outside 2xx. *)
Definition fetchNodeDetails (snapshot : ClusterData) (nodeName : string)
  : Detail.Outcome :=
  match ResolveNodeDetail snapshot nodeName with
  | Found detail => Detail.Resolved detail
  | NotFound => Detail.Rejected (ErrorObject "Request failed with status code 404")
  end.

End Backend.

(** ** Sample data *)

Definition sampleNode (nm rl : string) : Node :=
  {| name := nm; uid := ""; labels := ∅; role := rl; status := "Ready";
     capacity := {| cpu := "4"; memory := "8Gi"; pods := Some "110" |};
     allocatable := {| cpu := "4"; memory := "8Gi"; pods := Some "110" |};
     info := {| os := "linux"; architecture := "amd64"; kernel := "";
                container_runtime := ""; kubelet_version := "" |};
     addresses := []; pods_on_node := 0; metrics := None; pods_details := None |}.

Definition samplePod (nm owner : string) : Pod :=
  {| pod_name := nm; pod_namespace := "default"; pod_uid := nm; pod_node := owner;
     pod_status := "Running"; ip := ""; pod_labels := ∅; containers := [];
     restart_count := 0 |}.

Definition sampleFetched (nm : string) (ls : gmap string string) : Backend.FetchedNode :=
  {| Backend.fetched_name := nm; Backend.fetched_uid := ""; Backend.fetched_labels := ls;
     Backend.fetched_status := "Ready";
     Backend.fetched_capacity := {| cpu := "4"; memory := "8Gi"; pods := None |};
     Backend.fetched_allocatable := {| cpu := "4"; memory := "8Gi"; pods := None |};
     Backend.fetched_info := {| os := "linux"; architecture := "amd64"; kernel := "";
                container_runtime := ""; kubelet_version := "" |};
     Backend.fetched_addresses := [] |}.

Definition controlPlaneKey : string := "node-role.kubernetes.io/control-plane".

(** ** Statements about the edge set *)

(** All pairs of a first and a second name. *)
Definition pairsOf (xs ys : list string) : list (string * string) :=
  xs ≫= (λ x, pair x <$> ys).

(** The three-case edge rule, read on the edge list [es] built for
    [nodes]: full master-to-worker product, chain over the workers in
    input order, or nothing. *)
Definition edgeRule (nodes : list Node) (es : list VisEdge) : Prop :=
  let M := masterNodes nodes in
  let W := workerNodes nodes in
  (0 < length M ∧ 0 < length W →
     es = masterWorkerEdges M W ∧ length es = length M * length W ∧
     (∀ m w, m ∈ M → w ∈ W → masterEdge m w ∈ es)) ∧
  (length M = 0 ∧ 1 < length W →
     es = chainOf W ∧ length es = length W - 1 ∧ W `sublist_of` nodes ∧
     (∀ i a b, W !! i = Some a → W !! (i + 1) = Some b →
               es !! i = Some (chainEdge a b))) ∧
  (¬ (0 < length M ∧ 0 < length W) ∧ ¬ (length M = 0 ∧ 1 < length W) →
     es = []).

(** No two edges join the same pair of names. *)
Definition noDuplicateEdges (es : list VisEdge) : Prop :=
  NoDup (endpoints <$> es).

(** The vertex of [n] touches no edge of the graph built for [nodes]. *)
Definition isolatedVertex (nodes : list Node) (n : Node) : Prop :=
  ∀ es e, visEdges nodes = Some es → e ∈ es → ¬ incident (id (visNode n)) e.

(** The edge rule together with the absence of duplicate edges in the
    master-to-worker case, for an arbitrary node list. *)
Definition edgeRuleWithoutDuplicates (nodes : list Node) : Prop :=
  ∃ es, visEdges nodes = Some es ∧ edgeRule nodes es ∧
        (0 < length (masterNodes nodes) ∧ 0 < length (workerNodes nodes) →
         noDuplicateEdges es).

(** One master and two workers that share a name. *)
Definition sharedWorkerName : list Node :=
  [sampleNode "m1" "master"; sampleNode "w1" "worker"; sampleNode "w1" "worker"].

(** A master, a worker, and a node without role named like the worker. *)
Definition sharedOtherName : list Node :=
  [sampleNode "a" "master"; sampleNode "b" "worker"; sampleNode "b" ""].

(** One master and two workers, all names distinct. *)
Definition smallCluster : list Node :=
  [sampleNode "m1" "master"; sampleNode "w1" "worker"; sampleNode "w2" "worker"].

(** ** Statements about the two components *)

(** The message [catch] stores for a thrown value. *)
Definition caughtMessage (fallback : string) (err : Thrown) : string :=
  match err with
  | ErrorObject message => message
  | OtherValue => fallback
  end.

(** A topology view that shows its nodes still shows them after a failed
    reload. *)
Definition keepsRenderingAfterError (s : Topology.State) (err : Thrown) : Prop :=
  Topology.nodes s ≠ [] →
  Topology.rendersNodes (Topology.render s) = true →
  Topology.rendersNodes
    (Topology.render (Topology.loadClusterData s (Topology.Rejected err))) = true.

(** The topology component once [smallCluster] has been loaded. *)
Definition loadedTopology : Topology.State :=
  Topology.loadClusterData Topology.initial (Topology.Resolved smallCluster).

(** The detail panel once the details of a node have been loaded. *)
Definition loadedDetail (n : Node) : Detail.State :=
  Detail.run Detail.initial
    [Detail.Select (Some (name n)); Detail.Settle (Detail.Resolved n)].

(** ** Statements about the backend model *)

(** The fetch results of [r] with the metrics fetch failing instead. *)
Definition withFailedMetrics (r : Backend.FetchResults) (cause : string)
  : Backend.FetchResults :=
  {| Backend.nodes_fetch := Backend.nodes_fetch r;
     Backend.pods_fetch := Backend.pods_fetch r;
     Backend.namespaces_fetch := Backend.namespaces_fetch r;
     Backend.deployments_fetch := Backend.deployments_fetch r;
     Backend.services_fetch := Backend.services_fetch r;
     Backend.metrics_fetch := Backend.FetchFailed cause |}.

Definition succeeded {A} (f : Backend.Fetch A) : bool :=
  match f with
  | Backend.Fetched _ => true
  | Backend.FetchFailed _ => false
  end.

(** At least one of the five resource fetches succeeded. *)
Definition anySucceeded (r : Backend.FetchResults) : bool :=
  succeeded (Backend.nodes_fetch r) || succeeded (Backend.pods_fetch r)
  || succeeded (Backend.namespaces_fetch r)
  || succeeded (Backend.deployments_fetch r)
  || succeeded (Backend.services_fetch r).

(** The pods owned by the node called [nodeName]. *)
Definition podsOwnedBy (nodeName : string) (pods : list Pod) : list Pod :=
  filter (λ p, Backend.owner p = Some nodeName) pods.

(** ** Scenarios of the design document *)

(** One master carrying the control-plane label and two workers with two
    pods each, everything fetched except the metrics. *)
Definition scenarioFetches : Backend.FetchResults :=
  {| Backend.nodes_fetch :=
       Backend.Fetched [sampleFetched "m1" {[ controlPlaneKey := "" ]};
                        sampleFetched "w1" ∅; sampleFetched "w2" ∅];
     Backend.pods_fetch :=
       Backend.Fetched [samplePod "a" "w1"; samplePod "b" "w2"; samplePod "c" "w1";
                        samplePod "d" "w2"; samplePod "e" ""];
     Backend.namespaces_fetch := Backend.Fetched [];
     Backend.deployments_fetch := Backend.Fetched [];
     Backend.services_fetch := Backend.Fetched [];
     Backend.metrics_fetch := Backend.FetchFailed "metrics endpoint absent" |}.

(** The same cluster with the pod fetch failing. *)
Definition scenarioPodsFailed : Backend.FetchResults :=
  {| Backend.nodes_fetch := Backend.nodes_fetch scenarioFetches;
     Backend.pods_fetch := Backend.FetchFailed "timeout";
     Backend.namespaces_fetch := Backend.Fetched [];
     Backend.deployments_fetch := Backend.Fetched [];
     Backend.services_fetch := Backend.Fetched [];
     Backend.metrics_fetch := Backend.Fetched ∅ |}.

(** Name, role and pod count of the nodes of a build, and its warnings. *)
Definition summary (res : Backend.SnapshotResult)
  : option (list (string * string * Z) * list Backend.PartialFailure) :=
  match res with
  | Backend.SnapshotOk snap w =>
      Some ((λ n, (name n, role n, pods_on_node n)) <$> cluster_nodes snap, w)
  | Backend.AggregationFailed _ => None
  end.

Definition snapshotNodes (res : Backend.SnapshotResult) : list Node :=
  match res with
  | Backend.SnapshotOk snap _ => cluster_nodes snap
  | Backend.AggregationFailed _ => []
  end.

(** ** Hovering and clicking the network (components/ClusterTopology.tsx) *)

(** The tooltip state; the positions are the DOM pixel coordinates of the
    hovered vertex. *)
Record Tooltip := {
  visible : bool;
  tooltip_x : Z;
  tooltip_y : Z;
  tooltip_node : option Node;
}.

(** [{ visible: false, x: 0, y: 0, node: null }], the initial value and the
    value set by the [blurNode], [dragging] and [onMouseLeave] handlers. *)
Definition hiddenTooltip : Tooltip :=
  {| visible := false; tooltip_x := 0; tooltip_y := 0; tooltip_node := None |}.

(** [nodes.find(n => n.name === nodeId)]. *)
Definition findNode (nodes : list Node) (nodeId : string) : option Node :=
  snd <$> list_find (λ n, name n = nodeId) nodes.

(** The [hoverNode] handler: the tooltip is set only when a node bears the
    hovered id. *)
Definition onHoverNode (nodes : list Node) (nodeId : string) (x y : Z)
    (t : Tooltip) : Tooltip :=
  match findNode nodes nodeId with
  | Some hoveredNode =>
      {| visible := true; tooltip_x := x; tooltip_y := y;
         tooltip_node := Some hoveredNode |}
  | None => t
  end.

(** [setTooltip(prev => ({ ...prev, visible: true }))]. *)
Definition onMouseEnter (t : Tooltip) : Tooltip :=
  {| visible := true; tooltip_x := tooltip_x t; tooltip_y := tooltip_y t;
     tooltip_node := tooltip_node t |}.

(** The node whose tooltip is on screen:
    [tooltip.visible && tooltip.node && (...)]. *)
Definition tooltipRendered (t : Tooltip) : option Node :=
  if visible t then tooltip_node t else None.

(** The label list of the tooltip, over [Object.entries(labels)]: the
    first ten entries, and the [+k more...] line when there are more. *)
Definition tooltipLabels (entries : list (string * string))
  : list (string * string) * option nat :=
  (take 10 entries,
   if bool_decide (10 < length entries) then Some (length entries - 10) else None).

(** ** The application shell (App.tsx) *)

Module App.

Record State := {
  selectedNode : option string;
  detail : Detail.State;
}.

Definition initial : State :=
  {| selectedNode := None; detail := Detail.initial |}.

(** [setSelectedNode(v)]: the panel's effect depends on [nodeName] alone,
    so it runs only when the value changes. *)
Definition setSelectedNode (v : option string) (s : State) : State :=
  if decide (v = selectedNode s) then s
  else {| selectedNode := v; detail := Detail.onNodeName v (detail s) |}.

Definition handleNodeClick (nodeName : string) (s : State) : State :=
  setSelectedNode (Some nodeName) s.

Definition handleCloseDetail (s : State) : State :=
  setSelectedNode None s.

(** The network's [click] handler, on the ids under the pointer:
    [if (params.nodes.length > 0) onNodeClick(params.nodes[0])]. *)
Definition onNetworkClick (params_nodes : list string) (s : State) : State :=
  match params_nodes with
  | nodeId :: _ => handleNodeClick nodeId s
  | [] => s
  end.

(** A pending detail request settles. *)
Definition settle (o : Detail.Outcome) (s : State) : State :=
  {| selectedNode := selectedNode s;
     detail := Detail.loadNodeDetails_settle (detail s) o |}.

(** What the panel shows. *)
Definition view (s : State) : option Detail.Panel :=
  Detail.render (selectedNode s) (detail s).

End App.

(** ** Life cycle of the topology component *)

(** The refresh button is part of the topology view only, and is disabled
    while a load is pending. *)
Definition refreshOffered (s : Topology.State) : bool :=
  match Topology.render s with
  | Topology.TopologyView bar => negb (Topology.refresh_disabled bar)
  | _ => false
  end.

(** [loadClusterData] is called on mount and by the refresh button; a
    pending call, marked by [refreshing], settles later. *)
Inductive lifecycle : Topology.State → Topology.State → Prop :=
  | lifecycle_refresh s :
      refreshOffered s = true →
      lifecycle s (Topology.loadClusterData_start s)
  | lifecycle_settle s o :
      Topology.refreshing s = true →
      lifecycle s (Topology.loadClusterData_settle s o).

(** The states the component goes through after mounting. *)
Inductive reachable : Topology.State → Prop :=
  | reachable_mount : reachable (Topology.loadClusterData_start Topology.initial)
  | reachable_step s s' : reachable s → lifecycle s s' → reachable s'.

(** An info bar with the refresh button disabled. *)
Definition disableRefresh (bar : Topology.InfoBar) : Topology.InfoBar :=
  {| Topology.total_nodes := Topology.total_nodes bar;
     Topology.masters := Topology.masters bar;
     Topology.workers := Topology.workers bar;
     Topology.ready_nodes := Topology.ready_nodes bar;
     Topology.not_ready_nodes := Topology.not_ready_nodes bar;
     Topology.total_pods := Topology.total_pods bar;
     Topology.refresh_disabled := true |}.

(** A topology state holding [nodes], at rest. *)
Definition showing (nodes : list Node) : Topology.State :=
  {| Topology.loading := false; Topology.error := None;
     Topology.nodes := nodes; Topology.refreshing := false |}.

(** The sum of the pod counts. *)
Definition sumPods (nodes : list Node) : Z :=
  foldr (λ n acc, (pods_on_node n + acc)%Z) 0%Z nodes.


(** * Properties *)

(** ** Loops of the edge construction *)

Lemma forEach_push {A B} (f : A → B) (l : list A) (acc : list B) :
  forEach l (λ acc x, push acc (f x)) acc = acc ++ (f <$> l).
Proof.
  unfold forEach. revert acc. induction l as [|x l IH]; intros acc; simpl.
  - by rewrite app_nil_r.
  - rewrite IH. unfold push. by rewrite <- app_assoc.
Qed.

Lemma forEach_masters (masters workers : list Node) (acc : list VisEdge) :
  forEach masters
    (λ acc master, forEach workers (λ acc worker, push acc (masterEdge master worker)) acc)
    acc
  = acc ++ masterWorkerEdges masters workers.
Proof.
  unfold forEach at 1. revert acc.
  induction masters as [|m ms IH]; intros acc; simpl.
  - by rewrite app_nil_r.
  - rewrite IH, forEach_push. unfold masterWorkerEdges. simpl.
    by rewrite <- app_assoc.
Qed.

Lemma length_masterWorkerEdges (masters workers : list Node) :
  length (masterWorkerEdges masters workers) = length masters * length workers.
Proof.
  unfold masterWorkerEdges. induction masters as [|m ms IH]; [done|].
  rewrite bind_cons, length_app, length_fmap, IH. simpl. lia.
Qed.

Lemma chainOf_cons (a b : Node) (rest : list Node) :
  chainOf (a :: b :: rest) = chainEdge a b :: chainOf (b :: rest).
Proof. reflexivity. Qed.

Lemma length_chainOf (ws : list Node) : length (chainOf ws) = length ws - 1.
Proof.
  induction ws as [|a [|b rest] IH]; simpl in *; try done.
  rewrite IH. lia.
Qed.

Lemma forRange_chain (ws : list Node) (c i : nat) (acc : list VisEdge) :
  i + c + 1 = length ws →
  forRange i c (chainBody ws) acc = Some (acc ++ chainOf (drop i ws)).
Proof.
  revert i acc. induction c as [|c IH]; intros i acc Hlen; simpl.
  - assert (Hd : length (drop i ws) = 1) by (rewrite length_drop; lia).
    destruct (drop i ws) as [|a [|b r]]; simpl in Hd; try lia.
    simpl. by rewrite app_nil_r.
  - unfold chainBody at 1.
    destruct (lookup_lt_is_Some_2 ws i) as [a Ha]; [lia|].
    destruct (lookup_lt_is_Some_2 ws (i + 1)) as [b Hb]; [lia|].
    rewrite Ha, Hb. rewrite IH by lia.
    rewrite (drop_S ws a i Ha).
    replace (i + 1) with (S i) in Hb by lia.
    rewrite (drop_S ws b (S i) Hb).
    rewrite chainOf_cons. unfold push. by rewrite <- app_assoc.
Qed.

Lemma chainOf_lookup (ws : list Node) (i : nat) (a b : Node) :
  ws !! i = Some a → ws !! (i + 1) = Some b →
  chainOf ws !! i = Some (chainEdge a b).
Proof.
  revert i. induction ws as [|x [|y rest] IH]; intros i Ha Hb.
  - done.
  - destruct i; simpl in *; done.
  - destruct i as [|i].
    + simpl in *. congruence.
    + rewrite chainOf_cons. simpl. apply IH; done.
Qed.

(** The edge list of every node list, in closed form; in particular the
    chain loop never reads out of range. *)
Lemma visEdges_cases (nodes : list Node) :
  visEdges nodes =
    Some (match masterNodes nodes, workerNodes nodes with
          | _ :: _, _ :: _ => masterWorkerEdges (masterNodes nodes) (workerNodes nodes)
          | [], _ :: _ :: _ => chainOf (workerNodes nodes)
          | _, _ => []
          end).
Proof.
  unfold visEdges.
  destruct (masterNodes nodes) as [|m ms] eqn:HM;
    destruct (workerNodes nodes) as [|w ws] eqn:HW; simpl; try done.
  - destruct ws as [|w' ws]; simpl; [done|].
    rewrite forRange_chain by (simpl; lia). reflexivity.
  - rewrite forEach_masters. done.
Qed.

(** ** Names of the two tiers *)

Lemma masterNodes_spec (nodes : list Node) (n : Node) :
  n ∈ masterNodes nodes ↔ n ∈ nodes ∧ role n = "master".
Proof. unfold masterNodes. rewrite list_elem_of_filter. tauto. Qed.

Lemma workerNodes_spec (nodes : list Node) (n : Node) :
  n ∈ workerNodes nodes ↔ n ∈ nodes ∧ role n = "worker".
Proof. unfold workerNodes. rewrite list_elem_of_filter. tauto. Qed.

Lemma NoDup_fmap_filter {A B} (f : A → B) (P : A → Prop)
    `{!∀ x, Decision (P x)} (l : list A) :
  NoDup (f <$> l) → NoDup (f <$> filter P l).
Proof.
  induction l as [|x l IH]; [done|].
  rewrite fmap_cons, NoDup_cons. intros [Hx Hl].
  rewrite filter_cons. destruct (decide (P x)); [|by apply IH].
  rewrite fmap_cons, NoDup_cons. split; [|by apply IH].
  intros (y & Hy & Hin)%list_elem_of_fmap.
  apply list_elem_of_filter in Hin as [_ Hin].
  apply Hx. rewrite Hy. by apply list_elem_of_fmap_2.
Qed.

Lemma NoDup_fmap_eq {A B} (f : A → B) (l : list A) (x y : A) :
  NoDup (f <$> l) → x ∈ l → y ∈ l → f x = f y → x = y.
Proof.
  induction l as [|z l IH]; [by inversion 2|].
  rewrite fmap_cons, NoDup_cons. intros [Hz Hl] Hx Hy Hf.
  apply elem_of_cons in Hx as [->|Hx]; apply elem_of_cons in Hy as [->|Hy].
  - done.
  - exfalso. apply Hz. rewrite Hf. by apply list_elem_of_fmap_2.
  - exfalso. apply Hz. rewrite <- Hf. by apply list_elem_of_fmap_2.
  - by apply IH.
Qed.

(** With pairwise distinct names no name belongs to both tiers. *)
Lemma tiers_disjoint (nodes : list Node) (m w : Node) :
  NoDup (name <$> nodes) → m ∈ masterNodes nodes → w ∈ workerNodes nodes →
  name m ≠ name w.
Proof.
  intros Hnd [Hm Hrm]%masterNodes_spec [Hw Hrw]%workerNodes_spec Heq.
  assert (m = w) as -> by eauto using NoDup_fmap_eq.
  congruence.
Qed.

Lemma endpoints_masterWorkerEdges (masters workers : list Node) :
  endpoints <$> masterWorkerEdges masters workers
  = pairsOf (name <$> masters) (name <$> workers).
Proof.
  unfold masterWorkerEdges, pairsOf.
  induction masters as [|m ms IH]; [done|].
  rewrite fmap_cons, !bind_cons, fmap_app, IH. f_equal.
  rewrite <- !list_fmap_compose. done.
Qed.

Lemma elem_of_pairsOf (xs ys : list string) (p : string * string) :
  p ∈ pairsOf xs ys ↔ p.1 ∈ xs ∧ p.2 ∈ ys.
Proof.
  unfold pairsOf. rewrite list_elem_of_bind. split.
  - intros (x & (y & -> & Hy)%list_elem_of_fmap & Hx). done.
  - intros [Hx Hy]. exists p.1. split; [|done].
    apply list_elem_of_fmap. exists p.2. by destruct p.
Qed.

Lemma NoDup_pairsOf (xs ys : list string) :
  NoDup xs → NoDup ys → NoDup (pairsOf xs ys).
Proof.
  intros Hxs Hys. induction Hxs as [|x xs Hx Hxs IH]; [constructor|].
  unfold pairsOf. rewrite bind_cons. apply NoDup_app. split_and!.
  - apply (NoDup_fmap_2 (pair x)). done.
  - intros p (y & -> & _)%list_elem_of_fmap Hp.
    apply (elem_of_pairsOf xs ys) in Hp as [Hp _]. done.
  - exact IH.
Qed.

Lemma elem_of_masterWorkerEdges (masters workers : list Node) (e : VisEdge) :
  e ∈ masterWorkerEdges masters workers ↔
  ∃ m w, m ∈ masters ∧ w ∈ workers ∧ e = masterEdge m w.
Proof.
  unfold masterWorkerEdges. rewrite list_elem_of_bind. split.
  - intros (m & (w & -> & Hw)%list_elem_of_fmap & Hm). eauto.
  - intros (m & w & Hm & Hw & ->). exists m. split; [|done].
    by apply list_elem_of_fmap_2.
Qed.

Lemma elem_of_chainOf (ws : list Node) (e : VisEdge) :
  e ∈ chainOf ws →
  ∃ i a b, ws !! i = Some a ∧ ws !! (i + 1) = Some b ∧ e = chainEdge a b.
Proof.
  induction ws as [|x [|y rest] IH]; [by inversion 1..|].
  rewrite chainOf_cons. intros [->|He]%elem_of_cons.
  - by exists 0, x, y.
  - destruct (IH He) as (i & a & b & Ha & Hb & ->).
    by exists (S i), a, b.
Qed.

Lemma chainOf_no_loop (ws : list Node) (e : VisEdge) :
  NoDup (name <$> ws) → e ∈ chainOf ws → from e ≠ to e.
Proof.
  intros Hnd (i & a & b & Ha & Hb & ->)%elem_of_chainOf. simpl. intros Heq.
  assert (Hi : (name <$> ws) !! i = Some (name a)) by (by rewrite list_lookup_fmap, Ha).
  assert (Hj : (name <$> ws) !! (i + 1) = Some (name b)) by (by rewrite list_lookup_fmap, Hb).
  rewrite Heq in Hi.
  pose proof (NoDup_lookup _ _ _ _ Hnd Hi Hj). lia.
Qed.

Lemma chainOf_from (ws : list Node) (e : VisEdge) :
  e ∈ chainOf ws → from e ∈ (name <$> ws) ∧ to e ∈ (name <$> ws).
Proof.
  intros (i & a & b & Ha & Hb & ->)%elem_of_chainOf. simpl.
  split; apply list_elem_of_fmap_2; eapply list_elem_of_lookup_2; eauto.
Qed.

Lemma NoDup_chainOf (ws : list Node) :
  NoDup (name <$> ws) → NoDup (endpoints <$> chainOf ws).
Proof.
  induction ws as [|a [|b rest] IH]; [constructor..|].
  intros Hnd. rewrite chainOf_cons, fmap_cons. apply NoDup_cons. split.
  - intros (e & He & Hin)%list_elem_of_fmap.
    apply chainOf_from in Hin as [Hfrom _].
    rewrite fmap_cons in Hnd. apply NoDup_cons in Hnd as [Ha _].
    apply Ha. unfold endpoints in He. simpl in He.
    injection He as Hf _. by rewrite Hf.
  - apply IH. rewrite fmap_cons in Hnd. by apply NoDup_cons in Hnd as [_ ?].
Qed.

Lemma edgeRule_holds (nodes : list Node) :
  ∃ es, visEdges nodes = Some es ∧ edgeRule nodes es ∧
        (NoDup (name <$> nodes) → noDuplicateEdges es).
Proof.
  rewrite visEdges_cases. eexists. split; [reflexivity|].
  unfold edgeRule, noDuplicateEdges.
  pose proof (sublist_filter (λ n, role n = "worker") nodes) as Hsub.
  fold (workerNodes nodes) in Hsub.
  pose proof (NoDup_fmap_filter name (λ n, role n = "master") nodes) as HndM.
  pose proof (NoDup_fmap_filter name (λ n, role n = "worker") nodes) as HndW.
  fold (masterNodes nodes) in HndM. fold (workerNodes nodes) in HndW.
  destruct (masterNodes nodes) as [|m ms] eqn:HM;
    destruct (workerNodes nodes) as [|w ws] eqn:HW.
  - split_and!; simpl; try done; try lia. constructor.
  - destruct ws as [|w' ws].
    + split_and!; simpl; try done; try lia. constructor.
    + split_and!; try (simpl; lia).
      * intros _. split_and!; [done|by rewrite length_chainOf|done|].
        intros i a b. apply chainOf_lookup.
      * intros Hnd. apply NoDup_chainOf. auto.
  - split_and!; simpl; try done; try lia. constructor.
  - split_and!; try (simpl; lia).
    + intros _. split_and!; [done|by rewrite length_masterWorkerEdges|].
      intros m' w' Hm' Hw'. apply elem_of_masterWorkerEdges. eauto.
    + intros Hnd. rewrite endpoints_masterWorkerEdges.
      apply NoDup_pairsOf; auto.
Qed.

(** ** The edge rule *)

(** C1, as amended: for every node list the edge list follows the
    three-case rule (one edge per master and worker, |M| * |W| in all and
    in master-major order; a chain of |W| - 1 edges over the workers in
    input order when there is no master and more than one worker; no edge
    otherwise), the network created by the effect carries exactly these
    edges, and the edges are free of duplicates whenever the node names
    are pairwise distinct. *)
Theorem edge_rule (nodes : list Node) :
  ∃ es, visEdges nodes = Some es ∧ edgeRule nodes es ∧
        (NoDup (name <$> nodes) → noDuplicateEdges es) ∧
        (∀ c net, createNetwork c nodes = Created net → network_edges net = es) ∧
        (nodes = [] → ∀ c, createNetwork c nodes = Skipped).
Proof.
  destruct (edgeRule_holds nodes) as (es & Hes & Hrule & Hnd).
  exists es. split_and!; try done.
  - intros c net. unfold createNetwork. rewrite Hes.
    destruct (negb c || _); [done|].
    unfold newNetwork. case_bool_decide; [by intros [= <-]|done].
  - intros -> c. unfold createNetwork. simpl. by rewrite orb_true_r.
Qed.

(** C1, as stated, fails when two workers share a name: the master is
    joined to that name twice. *)
Lemma edge_rule_duplicate_names :
  visEdges sharedWorkerName
  = Some [{| from := "m1"; to := "w1"; smooth := CubicBezier |};
          {| from := "m1"; to := "w1"; smooth := CubicBezier |}] ∧
  ¬ edgeRuleWithoutDuplicates sharedWorkerName.
Proof.
  split; [vm_compute; reflexivity|].
  intros (es & Hes & _ & Hnd).
  vm_compute in Hes. injection Hes as <-.
  assert (H : noDuplicateEdges
                [masterEdge (sampleNode "m1" "master") (sampleNode "w1" "worker");
                 masterEdge (sampleNode "m1" "master") (sampleNode "w1" "worker")]).
  { apply Hnd. vm_compute. lia. }
  unfold noDuplicateEdges in H. simpl in H.
  apply NoDup_cons in H as [H _]. apply H. left.
Qed.

(** ** Tiers *)

Lemma visNode_level (n : Node) :
  level (visNode n) = if bool_decide (role n = "master") then 0 else 1.
Proof. reflexivity. Qed.

(** C2: with pairwise distinct names the graph has no self-edge; as soon
    as there is a master, every edge leaves the name of a master (a level 0
    vertex) and enters the name of a worker (a level 1 vertex), so that no
    edge joins two masters or two workers; and without masters the edges
    are the simple chain over the workers. *)
Theorem edges_only_between_tiers (nodes : list Node) :
  NoDup (name <$> nodes) →
  ∃ es, visEdges nodes = Some es ∧
    (∀ e, e ∈ es → from e ≠ to e) ∧
    (0 < length (masterNodes nodes) →
       ∀ e, e ∈ es →
         from e ∈ (name <$> masterNodes nodes) ∧ to e ∈ (name <$> workerNodes nodes) ∧
         (from e ∉ (name <$> workerNodes nodes)) ∧ (to e ∉ (name <$> masterNodes nodes)) ∧
         (∀ v, v ∈ visNodes nodes → id v = from e → level v = 0) ∧
         (∀ v, v ∈ visNodes nodes → id v = to e → level v = 1)) ∧
    (length (masterNodes nodes) = 0 →
       es = chainOf (workerNodes nodes) ∧ NoDup (name <$> workerNodes nodes) ∧
       ∀ e, e ∈ es → from e ∈ (name <$> workerNodes nodes)
                     ∧ to e ∈ (name <$> workerNodes nodes)).
Proof.
  intros Hnd.
  assert (HndW : NoDup (name <$> workerNodes nodes))
    by (by apply NoDup_fmap_filter).
  assert (Hpair : ∀ e, e ∈ masterWorkerEdges (masterNodes nodes) (workerNodes nodes) →
            ∃ m w, m ∈ masterNodes nodes ∧ w ∈ workerNodes nodes ∧ e = masterEdge m w).
  { intros e. by rewrite elem_of_masterWorkerEdges. }
  assert (Hlevel : ∀ x v, x ∈ nodes → v ∈ visNodes nodes → id v = name x →
            level v = if bool_decide (role x = "master") then 0 else 1).
  { intros x v Hx (y & -> & Hy)%list_elem_of_fmap Hid. simpl in Hid.
    rewrite visNode_level. by rewrite (NoDup_fmap_eq name nodes y x). }
  rewrite visEdges_cases. eexists. split; [reflexivity|].
  destruct (masterNodes nodes) as [|m ms] eqn:HM.
  - assert (Hes : match workerNodes nodes with
                  | _ :: _ :: _ => chainOf (workerNodes nodes)
                  | _ => []
                  end = chainOf (workerNodes nodes))
      by (by destruct (workerNodes nodes) as [|? [|? ?]]).
    rewrite Hes. split_and!.
    + intros e. by apply chainOf_no_loop.
    + simpl. lia.
    + intros _. split_and!; [done..|]. intros e. apply chainOf_from.
  - destruct (workerNodes nodes) as [|w ws] eqn:HW.
    { split_and!; [by inversion 1| by inversion 2|simpl; lia]. }
    rewrite <- HM, <- HW in *. split_and!.
    + intros e (m' & w' & Hm' & Hw' & ->)%Hpair. simpl.
      by apply (tiers_disjoint nodes).
    + intros _ e (m' & w' & Hm' & Hw' & ->)%Hpair. simpl. split_and!.
      * by apply list_elem_of_fmap_2.
      * by apply list_elem_of_fmap_2.
      * intros (w'' & Heq & Hw'')%list_elem_of_fmap.
        by apply (tiers_disjoint nodes m' w'' Hnd Hm' Hw'').
      * intros (m'' & Heq & Hm'')%list_elem_of_fmap.
        apply (tiers_disjoint nodes m'' w' Hnd Hm'' Hw'). by rewrite <- Heq.
      * intros v Hv Hid. apply masterNodes_spec in Hm' as [Hin Hr].
        rewrite (Hlevel m' v Hin Hv Hid). by rewrite bool_decide_true.
      * intros v Hv Hid. apply workerNodes_spec in Hw' as [Hin Hr].
        rewrite (Hlevel w' v Hin Hv Hid). rewrite bool_decide_false; [done|].
        rewrite Hr. discriminate.
    + rewrite HM. simpl. lia.
Qed.

Lemma edges_only_between_tiers_witness :
  ∃ es, visEdges smallCluster = Some es ∧
    (∀ e, e ∈ es → from e ≠ to e) ∧
    (0 < length (masterNodes smallCluster) →
       ∀ e, e ∈ es →
         from e ∈ (name <$> masterNodes smallCluster) ∧
         to e ∈ (name <$> workerNodes smallCluster) ∧
         (from e ∉ (name <$> workerNodes smallCluster)) ∧
         (to e ∉ (name <$> masterNodes smallCluster)) ∧
         (∀ v, v ∈ visNodes smallCluster → id v = from e → level v = 0) ∧
         (∀ v, v ∈ visNodes smallCluster → id v = to e → level v = 1)) ∧
    (length (masterNodes smallCluster) = 0 →
       es = chainOf (workerNodes smallCluster) ∧
       NoDup (name <$> workerNodes smallCluster) ∧
       ∀ e, e ∈ es → from e ∈ (name <$> workerNodes smallCluster)
                     ∧ to e ∈ (name <$> workerNodes smallCluster)).
Proof.
  apply (edges_only_between_tiers smallCluster).
  apply (bool_decide_unpack _). vm_compute. exact I.
Defined.

(** ** Repeated construction *)

Lemma visNodes_ids (nodes : list Node) : id <$> visNodes nodes = name <$> nodes.
Proof. unfold visNodes. by rewrite <- list_fmap_compose. Qed.

(** The three outcomes of the effect body, by the container, the node list
    and its names. *)
Lemma createNetwork_cases (c : bool) (nodes : list Node) :
  (createNetwork c nodes = Skipped ∧ (c = false ∨ nodes = [])) ∨
  (createNetwork c nodes = Threw ∧ c = true ∧ nodes ≠ [] ∧
     ¬ NoDup (name <$> nodes)) ∨
  (∃ net, createNetwork c nodes = Created net ∧ c = true ∧ nodes ≠ [] ∧
          NoDup (name <$> nodes) ∧
          network_nodes net = visNodes nodes ∧
          visEdges nodes = Some (network_edges net)).
Proof.
  unfold createNetwork. destruct c; simpl.
  - destruct nodes as [|n nodes]; [left; auto|]. right.
    destruct (edgeRule_holds (n :: nodes)) as (es & Hes & _).
    rewrite Hes. rewrite bool_decide_false by (simpl; lia).
    unfold newNetwork. rewrite visNodes_ids. case_bool_decide as Hnd.
    + right. eexists. split_and!; done.
    + left. split_and!; done.
  - left. auto.
Qed.





(** ** Nodes with another role *)

Lemma incident_masterWorkerEdges (masters workers : list Node) (e : VisEdge) (v : string) :
  e ∈ masterWorkerEdges masters workers → incident v e →
  (∃ m, m ∈ masters ∧ name m = v) ∨ (∃ w, w ∈ workers ∧ name w = v).
Proof.
  intros (m & w & Hm & Hw & ->)%elem_of_masterWorkerEdges [H|H]; simpl in H; eauto.
Qed.

Lemma incident_chainOf (ws : list Node) (e : VisEdge) (v : string) :
  e ∈ chainOf ws → incident v e → ∃ w, w ∈ ws ∧ name w = v.
Proof.
  intros (i & a & b & Ha & Hb & ->)%elem_of_chainOf [H|H]; simpl in H;
    eauto using list_elem_of_lookup_2.
Qed.

(** Every edge end is the name of a master or of a worker. *)
Lemma incident_tier (nodes : list Node) (es : list VisEdge) (e : VisEdge) (v : string) :
  visEdges nodes = Some es → e ∈ es → incident v e →
  ∃ x, x ∈ nodes ∧ name x = v ∧ (role x = "master" ∨ role x = "worker").
Proof.
  rewrite visEdges_cases. intros [= <-] He Hv.
  assert (Hm : ∀ x, x ∈ masterNodes nodes → x ∈ nodes ∧ role x = "master")
    by (intros x; apply masterNodes_spec).
  assert (Hw : ∀ x, x ∈ workerNodes nodes → x ∈ nodes ∧ role x = "worker")
    by (intros x; apply workerNodes_spec).
  destruct (masterNodes nodes) as [|m ms] eqn:HM;
    destruct (workerNodes nodes) as [|w ws] eqn:HW; try by inversion He.
  - destruct ws as [|w' ws]; [by inversion He|].
    destruct (incident_chainOf _ _ _ He Hv) as (x & Hx & <-).
    destruct (Hw x Hx). eauto.
  - destruct (incident_masterWorkerEdges _ _ _ _ He Hv) as [(x & Hx & <-)|(x & Hx & <-)].
    + destruct (Hm x Hx). eauto.
    + destruct (Hw x Hx). eauto.
Qed.

(** C9, as amended: every node gets exactly one vertex whatever its role;
    the two partitions hold exactly the nodes whose role is 'master',
    respectively 'worker'; a node with any other role is in neither
    partition, and its vertex touches no edge provided no master or worker
    of the list bears the same name. *)
Theorem other_role_vertex_isolated (nodes : list Node) :
  id <$> visNodes nodes = name <$> nodes ∧
  length (visNodes nodes) = length nodes ∧
  (∀ x, x ∈ masterNodes nodes ↔ x ∈ nodes ∧ role x = "master") ∧
  (∀ x, x ∈ workerNodes nodes ↔ x ∈ nodes ∧ role x = "worker") ∧
  ∀ n, n ∈ nodes → role n ≠ "master" → role n ≠ "worker" →
    visNode n ∈ visNodes nodes ∧
    (n ∉ masterNodes nodes) ∧ (n ∉ workerNodes nodes) ∧
    ((∀ x, x ∈ nodes → name x = name n → role x ≠ "master" ∧ role x ≠ "worker") →
     isolatedVertex nodes n).
Proof.
  split_and!.
  - unfold visNodes. by rewrite <- list_fmap_compose.
  - unfold visNodes. by rewrite length_fmap.
  - apply masterNodes_spec.
  - apply workerNodes_spec.
  - intros n Hn Hnm Hnw. split_and!.
    + unfold visNodes. by apply list_elem_of_fmap_2.
    + rewrite masterNodes_spec. tauto.
    + rewrite workerNodes_spec. tauto.
    + intros Hname es e Hes He Hinc. simpl in Hinc.
      destruct (incident_tier nodes es e (name n) Hes He Hinc) as (x & Hx & Heq & Hr).
      destruct (Hname x Hx Heq). tauto.
Qed.

Lemma other_role_vertex_isolated_witness :
  isolatedVertex (smallCluster ++ [sampleNode "x" ""]) (sampleNode "x" "").
Proof.
  apply (other_role_vertex_isolated (smallCluster ++ [sampleNode "x" ""])).
  - apply elem_of_app. right. left.
  - discriminate.
  - discriminate.
  - intros x Hx Hname.
    unfold smallCluster in Hx. simpl in Hx.
    repeat (apply elem_of_cons in Hx as [->|Hx]; [try discriminate Hname|]).
    + split; discriminate.
    + by apply elem_of_nil in Hx.
Defined.

(** C9, as stated, fails when the node without role bears the name of a
    worker: the edge built for that worker ends at its vertex id. *)
Lemma other_role_shared_name :
  sampleNode "b" "" ∈ sharedOtherName ∧
  role (sampleNode "b" "") ≠ "master" ∧ role (sampleNode "b" "") ≠ "worker" ∧
  ¬ isolatedVertex sharedOtherName (sampleNode "b" "").
Proof.
  split_and!.
  - unfold sharedOtherName. set_solver.
  - discriminate.
  - discriminate.
  - intros H.
    apply (H [masterEdge (sampleNode "a" "master") (sampleNode "b" "worker")]
             (masterEdge (sampleNode "a" "master") (sampleNode "b" "worker"))).
    + vm_compute. reflexivity.
    + left.
    + right. reflexivity.
Qed.

(** ** The topology view after a failed reload *)

Lemma topology_renders_nodes_iff (s : Topology.State) :
  Topology.rendersNodes (Topology.render s) = true ↔
  Topology.loading s = false ∧ truthy (Topology.error s) = false ∧ Topology.nodes s ≠ [].
Proof.
  unfold Topology.render.
  destruct (Topology.loading s), (truthy (Topology.error s)); simpl;
    try (split; [discriminate|intros (? & ? & ?); discriminate]).
  destruct (Topology.nodes s) as [|n ns]; simpl.
  - split; [discriminate|]. intros (_ & _ & H). by destruct H.
  - split; [|done]. intros _. split_and!; done.
Qed.

(** C8, as amended: a failed reload keeps the node list in the component
    state and records the caught message; unless that message is empty,
    the whole view then consists of the error message alone, and the node
    list is not rendered.  The list is rendered exactly when the first
    load has finished, no non-empty error message is recorded and the list
    is not empty. *)
Theorem error_view_replaces_topology (s : Topology.State) (err : Thrown) :
  let s' := Topology.loadClusterData s (Topology.Rejected err) in
  let msg := caughtMessage "Failed to load cluster data" err in
  Topology.nodes s' = Topology.nodes s ∧
  Topology.error s' = Some msg ∧
  Topology.loading s' = false ∧
  (msg ≠ "" →
     Topology.render s' = Topology.ErrorView msg ∧
     Topology.rendersNodes (Topology.render s') = false) ∧
  (∀ t, Topology.rendersNodes (Topology.render t) = true ↔
        Topology.loading t = false ∧ truthy (Topology.error t) = false
        ∧ Topology.nodes t ≠ []).
Proof.
  simpl. split_and!; try done.
  - intros Hmsg.
    assert (Hr : Topology.render (Topology.loadClusterData s (Topology.Rejected err))
                 = Topology.ErrorView (caughtMessage "Failed to load cluster data" err)).
    { unfold Topology.render, Topology.loadClusterData. simpl.
      replace (match err with
               | ErrorObject message => message
               | OtherValue => "Failed to load cluster data"
               end) with (caughtMessage "Failed to load cluster data" err)
        by (by destruct err).
      destruct (String.eqb_spec (caughtMessage "Failed to load cluster data" err) "")
        as [Heq|Hne]; [by destruct Hmsg|]. done. }
    split; [done|by rewrite Hr].
  - apply topology_renders_nodes_iff.
Qed.

(** C8, as stated, fails: after the three nodes of [smallCluster] are on
    screen, a reload rejected with "Network Error" leaves only the error
    view. *)
Lemma reload_error_hides_nodes :
  Topology.render loadedTopology ≠ Topology.ErrorView "Network Error" ∧
  Topology.render
    (Topology.loadClusterData loadedTopology
       (Topology.Rejected (ErrorObject "Network Error")))
  = Topology.ErrorView "Network Error" ∧
  ¬ keepsRenderingAfterError loadedTopology (ErrorObject "Network Error").
Proof.
  split_and!.
  - vm_compute. discriminate.
  - vm_compute. reflexivity.
  - intros H. unfold keepsRenderingAfterError in H.
    assert (Hf : false = true); [|discriminate Hf].
    apply H; [vm_compute; discriminate|vm_compute; reflexivity].
Qed.

(** ** The detail panel after a failed request *)

Lemma node_cleared_only_by_selection (s : Detail.State) (e : Detail.Event) :
  Detail.node (Detail.step s e) = None →
  Detail.node s = None ∨ ∃ sel, e = Detail.Select sel ∧ truthy sel = false.
Proof.
  destruct e as [sel|[data|err]]; simpl.
  - unfold Detail.onNodeName. destruct (truthy sel) eqn:Hsel; simpl; eauto.
  - discriminate.
  - auto.
Qed.

(** C10: when the details of node A are stored and the selection moves to
    a name whose request is rejected, the panel records the error message,
    stops loading and still renders the full details of A; no rejected
    request ever changes the stored node, and a stored node is only ever
    cleared by a selection for which [!nodeName] holds (null, which the
    guard does not tell apart from the empty string). *)
Theorem failed_detail_fetch_keeps_node
    (s : Detail.State) (A : Node) (nodeName : string) (err : Thrown) :
  Detail.node s = Some A → nodeName ≠ "" →
  let s' := Detail.run s [Detail.Select (Some nodeName);
                          Detail.Settle (Detail.Rejected err)] in
  let msg := caughtMessage "Failed to load node details" err in
  Detail.node s' = Some A ∧
  Detail.error s' = Some msg ∧
  Detail.loading s' = false ∧
  (∃ panel, Detail.render (Some nodeName) s' = Some panel ∧
            Detail.content panel = Some (Detail.nodeContent A) ∧
            (msg ≠ "" → Detail.error_banner panel = Some msg)) ∧
  (∀ t e, Detail.node (Detail.step t (Detail.Settle (Detail.Rejected e)))
          = Detail.node t) ∧
  (∀ t e, Detail.node (Detail.step t e) = None →
          Detail.node t = None ∨ ∃ sel, e = Detail.Select sel ∧ truthy sel = false).
Proof.
  intros HA Hname. simpl.
  assert (Htruthy : truthy (Some nodeName) = true).
  { simpl. by destruct (String.eqb_spec nodeName ""). }
  unfold Detail.onNodeName, Detail.render. rewrite Htruthy. simpl.
  replace (match err with
           | ErrorObject message => message
           | OtherValue => "Failed to load node details"
           end) with (caughtMessage "Failed to load node details" err)
    by (by destruct err).
  split_and!; try done.
  - eexists. split; [reflexivity|]. simpl. rewrite HA. split; [done|].
    intros Hmsg.
    by destruct (String.eqb_spec (caughtMessage "Failed to load node details" err) "").
  - apply node_cleared_only_by_selection.
Qed.

Lemma failed_detail_fetch_keeps_node_witness :
  let s' := Detail.run (loadedDetail (sampleNode "w1" "worker"))
              [Detail.Select (Some "w2");
               Detail.Settle (Detail.Rejected (ErrorObject "Request failed with status code 404"))] in
  Detail.node s' = Some (sampleNode "w1" "worker") ∧
  Detail.error s' = Some "Request failed with status code 404".
Proof.
  pose proof (failed_detail_fetch_keeps_node
                (loadedDetail (sampleNode "w1" "worker")) (sampleNode "w1" "worker")
                "w2" (ErrorObject "Request failed with status code 404")
                eq_refl ltac:(discriminate)) as (Hnode & Herr & _).
  split; [exact Hnode|exact Herr].
Defined.

(** ** Role classification *)

Lemma ClassifyRole_master (markers : list string) (labels : gmap string string) :
  Backend.ClassifyRole markers labels = Backend.master ↔
  ∃ key, key ∈ markers ∧ is_Some (labels !! key).
Proof.
  unfold Backend.ClassifyRole.
  destruct (existsb _ markers) eqn:He.
  - split; [intros _|done].
    apply existsb_exists in He as (key & Hin & Hk).
    exists key. split; [by apply list_elem_of_In|by apply bool_decide_eq_true in Hk].
  - split; [discriminate|]. intros (key & Hin & Hk).
    assert (Ht : existsb (λ key, bool_decide (is_Some (labels !! key))) markers = true).
    { apply existsb_exists. exists key.
      split; [by apply list_elem_of_In|by apply bool_decide_eq_true]. }
    congruence.
Qed.

(** C5: the classifier returns 'master' exactly when the label mapping has
    an entry, with whatever value, under one of the configured marker keys,
    and 'worker' otherwise; it yields one of the two roles on every label
    mapping, 'worker' on the empty one and 'master' for a marker with the
    empty string as value; the role string of an assembled node follows
    it. *)
Theorem role_master_iff_marker (markers : list string) (labels : gmap string string) :
  (Backend.ClassifyRole markers labels = Backend.master ↔
     ∃ key, key ∈ markers ∧ is_Some (labels !! key)) ∧
  (Backend.ClassifyRole markers labels = Backend.worker ↔
     ¬ ∃ key, key ∈ markers ∧ is_Some (labels !! key)) ∧
  Backend.ClassifyRole markers ∅ = Backend.worker ∧
  (∀ key, key ∈ markers →
     Backend.ClassifyRole markers (<[key := ""]> labels) = Backend.master) ∧
  (∀ counts f, Backend.fetched_labels f = labels →
     (role (Backend.assembleNode markers counts f) = "master" ↔
        ∃ key, key ∈ markers ∧ is_Some (labels !! key)) ∧
     (role (Backend.assembleNode markers counts f) = "worker" ↔
        ¬ ∃ key, key ∈ markers ∧ is_Some (labels !! key))).
Proof.
  pose proof (ClassifyRole_master markers labels) as Hm.
  assert (Hw : Backend.ClassifyRole markers labels = Backend.worker ↔
               ¬ ∃ key, key ∈ markers ∧ is_Some (labels !! key)).
  { rewrite <- Hm. destruct (Backend.ClassifyRole markers labels); split; congruence. }
  split_and!; try done.
  - destruct (Backend.ClassifyRole markers ∅) eqn:Hc; [|done].
    apply ClassifyRole_master in Hc as (key & _ & Hk).
    rewrite lookup_empty in Hk. by destruct Hk.
  - intros key Hin. apply ClassifyRole_master. exists key.
    split; [done|]. rewrite lookup_insert_eq. eauto.
  - intros counts f Hf. simpl. rewrite Hf, <- Hw, <- Hm.
    destruct (Backend.ClassifyRole markers labels); simpl; split_and!; split; congruence.
Qed.

(** ** Partial failure of the aggregation *)

Lemma length_failures (r : Backend.FetchResults) :
  length (Backend.failures r) = 5 ↔ anySucceeded r = false.
Proof.
  destruct r as [[?|?] [?|?] [?|?] [?|?] [?|?] ?];
    unfold Backend.failures, anySucceeded; simpl; split; (done || lia).
Qed.

Lemma BuildSnapshot_ok (markers : list string) (r : Backend.FetchResults) :
  anySucceeded r = true →
  Backend.BuildSnapshot markers r =
    Backend.SnapshotOk
      {| cluster_nodes :=
           Backend.MergeMetrics
             (Backend.assembleNode markers
                (Backend.IndexPods (Backend.collection (Backend.pods_fetch r))).2
              <$> Backend.collection (Backend.nodes_fetch r))
             (Backend.metricsByNode r);
         cluster_namespaces := Backend.collection (Backend.namespaces_fetch r);
         cluster_pods := Backend.collection (Backend.pods_fetch r);
         cluster_deployments := Backend.collection (Backend.deployments_fetch r);
         cluster_services := Backend.collection (Backend.services_fetch r) |}
      (Backend.failures r).
Proof.
  intros Hany. unfold Backend.BuildSnapshot.
  rewrite bool_decide_false; [done|].
  rewrite length_failures. congruence.
Qed.

Lemma BuildSnapshot_failed (markers : list string) (r : Backend.FetchResults) :
  anySucceeded r = false →
  Backend.BuildSnapshot markers r =
    Backend.AggregationFailed (Backend.cause <$> Backend.failures r).
Proof.
  intros Hnone. unfold Backend.BuildSnapshot.
  rewrite bool_decide_true; [done|]. by apply length_failures.
Qed.

(** C4: the aggregation returns a snapshot whenever at least one of the
    five resource fetches succeeded, and fails with the five causes only
    when all of them failed; in a returned snapshot every resource kind
    whose fetch failed has an empty collection and a recorded failure with
    that kind and cause, the recorded failures being exactly those of the
    failed fetches. *)
Theorem snapshot_fails_only_when_all_fail (markers : list string)
    (r : Backend.FetchResults) :
  (anySucceeded r = true →
     ∃ snap, Backend.BuildSnapshot markers r = Backend.SnapshotOk snap (Backend.failures r)) ∧
  (∀ causes, Backend.BuildSnapshot markers r = Backend.AggregationFailed causes →
     anySucceeded r = false ∧ length causes = 5) ∧
  (anySucceeded r = false →
     ∃ causes, Backend.BuildSnapshot markers r = Backend.AggregationFailed causes) ∧
  (∀ snap w, Backend.BuildSnapshot markers r = Backend.SnapshotOk snap w →
     w = Backend.failures r ∧
     (∀ c, Backend.nodes_fetch r = Backend.FetchFailed c →
        cluster_nodes snap = [] ∧
        {| Backend.kind := Backend.KNodes; Backend.cause := c |} ∈ w) ∧
     (∀ c, Backend.pods_fetch r = Backend.FetchFailed c →
        cluster_pods snap = [] ∧
        {| Backend.kind := Backend.KPods; Backend.cause := c |} ∈ w) ∧
     (∀ c, Backend.namespaces_fetch r = Backend.FetchFailed c →
        cluster_namespaces snap = [] ∧
        {| Backend.kind := Backend.KNamespaces; Backend.cause := c |} ∈ w) ∧
     (∀ c, Backend.deployments_fetch r = Backend.FetchFailed c →
        cluster_deployments snap = [] ∧
        {| Backend.kind := Backend.KDeployments; Backend.cause := c |} ∈ w) ∧
     (∀ c, Backend.services_fetch r = Backend.FetchFailed c →
        cluster_services snap = [] ∧
        {| Backend.kind := Backend.KServices; Backend.cause := c |} ∈ w)).
Proof.
  destruct (anySucceeded r) eqn:Hany.
  - rewrite (BuildSnapshot_ok markers r Hany). split_and!.
    + intros _. eauto.
    + discriminate.
    + discriminate.
    + intros snap w [= <- <-]. simpl. unfold Backend.failures.
      split; [done|].
      split_and!; intros c Hc; rewrite Hc; simpl; (split; [done|]);
        rewrite ?elem_of_app, ?elem_of_cons; auto 10.
  - rewrite (BuildSnapshot_failed markers r Hany). split_and!.
    + discriminate.
    + intros causes [= <-]. split; [done|].
      rewrite length_fmap. by apply length_failures.
    + intros _. eauto.
    + discriminate.
Qed.

(** ** Missing metrics *)

Lemma MergeMetrics_empty (nodes : list Node) : Backend.MergeMetrics nodes ∅ = nodes.
Proof.
  unfold Backend.MergeMetrics. induction nodes as [|n nodes IH]; [done|].
  rewrite fmap_cons, IH. by rewrite lookup_empty.
Qed.

Lemma MergeMetrics_cleared (markers : list string) (counts : gmap string nat)
    (fs : list Backend.FetchedNode) (m : gmap string NodeMetrics) :
  (λ n, Backend.with_metrics n None)
    <$> Backend.MergeMetrics (Backend.assembleNode markers counts <$> fs) m
  = Backend.assembleNode markers counts <$> fs.
Proof.
  unfold Backend.MergeMetrics. rewrite <- !list_fmap_compose.
  apply list_fmap_ext. intros i f _. simpl.
  by destruct (m !! Backend.fetched_name f).
Qed.

Lemma usage_row_iff (n : Node) :
  Detail.usage_row (Detail.nodeContent n) = None ↔ metrics n = None.
Proof. simpl. destruct (metrics n); split; congruence. Qed.

(** C6: with the metrics fetch failing, the aggregation succeeds or fails
    exactly as it would otherwise and records no failure for it; the
    snapshot then holds every fetched node, in order, with the metrics
    field unset (it is the snapshot of the run with metrics, metrics
    removed), and the detail view of such a node has no usage row: that
    row is rendered exactly when the metrics field is set. *)
Theorem metrics_failure_is_harmless (markers : list string)
    (r : Backend.FetchResults) (cause : string) :
  let r' := withFailedMetrics r cause in
  Backend.failures r' = Backend.failures r ∧
  (∀ causes, Backend.BuildSnapshot markers r' = Backend.AggregationFailed causes ↔
             Backend.BuildSnapshot markers r = Backend.AggregationFailed causes) ∧
  (∀ snap w, Backend.BuildSnapshot markers r = Backend.SnapshotOk snap w →
     ∃ snap', Backend.BuildSnapshot markers r' = Backend.SnapshotOk snap' w ∧
       cluster_nodes snap' = (λ n, Backend.with_metrics n None) <$> cluster_nodes snap ∧
       name <$> cluster_nodes snap'
         = Backend.fetched_name <$> Backend.collection (Backend.nodes_fetch r) ∧
       Forall (λ n, metrics n = None ∧ Detail.usage_row (Detail.nodeContent n) = None)
              (cluster_nodes snap') ∧
       cluster_pods snap' = cluster_pods snap) ∧
  (∀ n, Detail.usage_row (Detail.nodeContent n) = None ↔ metrics n = None) ∧
  (∀ n m, metrics n = Some m →
     Detail.usage_row (Detail.nodeContent n) = Some (metrics_cpu m, metrics_memory m)).
Proof.
  simpl.
  assert (Hany : anySucceeded (withFailedMetrics r cause) = anySucceeded r) by done.
  split_and!.
  - done.
  - intros causes. destruct (anySucceeded r) eqn:Hr.
    + rewrite (BuildSnapshot_ok markers r Hr).
      rewrite (BuildSnapshot_ok markers (withFailedMetrics r cause)) by congruence.
      split; discriminate.
    + rewrite (BuildSnapshot_failed markers r Hr).
      rewrite (BuildSnapshot_failed markers (withFailedMetrics r cause)) by congruence.
      done.
  - intros snap w Hsnap. destruct (anySucceeded r) eqn:Hr.
    + rewrite (BuildSnapshot_ok markers r Hr) in Hsnap. injection Hsnap as <- <-.
      rewrite (BuildSnapshot_ok markers (withFailedMetrics r cause)) by congruence.
      eexists. split; [reflexivity|]. simpl.
      change (Backend.metricsByNode (withFailedMetrics r cause)) with (∅ : gmap string NodeMetrics).
      rewrite MergeMetrics_empty, MergeMetrics_cleared. split_and!; try done.
      * by rewrite <- list_fmap_compose.
      * apply Forall_fmap, Forall_forall. intros f _. simpl. done.
    + rewrite (BuildSnapshot_failed markers r Hr) in Hsnap. discriminate.
  - apply usage_row_iff.
  - intros n m Hm. simpl. by rewrite Hm.
Qed.

(** ** Node detail *)

Lemma IndexPods_cons (p : Pod) (pods : list Pod) :
  Backend.IndexPods (p :: pods) =
    match Backend.owner p with
    | None => Backend.IndexPods pods
    | Some n =>
        (<[n := p :: default [] ((Backend.IndexPods pods).1 !! n)]> (Backend.IndexPods pods).1,
         <[n := S (default 0 ((Backend.IndexPods pods).2 !! n))]> (Backend.IndexPods pods).2)
    end.
Proof. reflexivity. Qed.

(** The indexer groups under a name exactly the pods that name owns, and
    counts them. *)
Lemma IndexPods_lookup (pods : list Pod) (nodeName : string) :
  default [] ((Backend.IndexPods pods).1 !! nodeName) = podsOwnedBy nodeName pods ∧
  default 0 ((Backend.IndexPods pods).2 !! nodeName) = length (podsOwnedBy nodeName pods).
Proof.
  unfold podsOwnedBy. induction pods as [|p pods [IH1 IH2]].
  - simpl. by rewrite !lookup_empty.
  - rewrite IndexPods_cons, filter_cons.
    destruct (Backend.owner p) as [n|] eqn:Hown.
    + destruct (decide (n = nodeName)) as [->|Hne].
      * rewrite decide_True by done. simpl.
        rewrite !lookup_insert_eq. simpl. by rewrite IH1, IH2.
      * rewrite decide_False by congruence. simpl.
        by rewrite !lookup_insert_ne.
    + rewrite decide_False by congruence. done.
Qed.

(** C7: resolving a name in a snapshot either finds a node of the snapshot
    bearing that name and returns its whole record, every field unchanged,
    with the pod details set to the complete list of the snapshot's pods
    owned by that name, or reports NotFound, which happens exactly when no
    node of the snapshot bears the name; through the detail request the
    panel therefore stores either such a complete record or, on NotFound,
    keeps what it had and records the error. *)
Theorem resolve_node_detail (snapshot : ClusterData) (nodeName : string) :
  match Backend.ResolveNodeDetail snapshot nodeName with
  | Backend.Found d =>
      ∃ n, n ∈ cluster_nodes snapshot ∧ name n = nodeName ∧
        d = Backend.with_pods_details n
              (Some (podsOwnedBy nodeName (cluster_pods snapshot))) ∧
        name d = nodeName ∧ uid d = uid n ∧ labels d = labels n ∧ role d = role n ∧
        status d = status n ∧ capacity d = capacity n ∧
        allocatable d = allocatable n ∧ info d = info n ∧
        addresses d = addresses n ∧ pods_on_node d = pods_on_node n ∧
        metrics d = metrics n ∧
        pods_details d = Some (podsOwnedBy nodeName (cluster_pods snapshot)) ∧
        ∀ s, Detail.node (Detail.step s (Detail.Settle
                (Backend.fetchNodeDetails snapshot nodeName))) = Some d
  | Backend.NotFound =>
      (∀ n, n ∈ cluster_nodes snapshot → name n ≠ nodeName) ∧
      ∀ s, let s' := Detail.step s (Detail.Settle
                       (Backend.fetchNodeDetails snapshot nodeName)) in
           Detail.node s' = Detail.node s ∧ is_Some (Detail.error s')
  end.
Proof.
  unfold Backend.fetchNodeDetails, Backend.ResolveNodeDetail.
  destruct (list_find _ (cluster_nodes snapshot)) as [[i n]|] eqn:Hfind.
  - apply list_find_Some in Hfind as (Hi & Hname & _).
    destruct (IndexPods_lookup (cluster_pods snapshot) nodeName) as [-> _].
    exists n. split_and!; try done.
    by eapply list_elem_of_lookup_2.
  - apply list_find_None in Hfind. rewrite Forall_forall in Hfind.
    split; [done|]. intros s. simpl. eauto.
Qed.

(** ** The scenarios, evaluated *)

Example scenario_roles_and_counts :
  summary (Backend.BuildSnapshot [controlPlaneKey] scenarioFetches)
  = Some ([("m1", "master", 0%Z); ("w1", "worker", 2%Z); ("w2", "worker", 2%Z)], []).
Proof. vm_compute. reflexivity. Qed.

Example scenario_master_edges :
  (λ es : list VisEdge, endpoints <$> es) <$>
    visEdges (snapshotNodes (Backend.BuildSnapshot [controlPlaneKey] scenarioFetches))
  = Some [("m1", "w1"); ("m1", "w2")].
Proof. vm_compute. reflexivity. Qed.

Example scenario_worker_chain :
  visEdges [sampleNode "w1" "worker"; sampleNode "w2" "worker"; sampleNode "w3" "worker"]
  = Some [{| from := "w1"; to := "w2"; smooth := Continuous |};
          {| from := "w2"; to := "w3"; smooth := Continuous |}].
Proof. vm_compute. reflexivity. Qed.

Example scenario_pods_failed :
  summary (Backend.BuildSnapshot [controlPlaneKey] scenarioPodsFailed)
  = Some ([("m1", "master", 0%Z); ("w1", "worker", 0%Z); ("w2", "worker", 0%Z)],
          [{| Backend.kind := Backend.KPods; Backend.cause := "timeout" |}]).
Proof. vm_compute. reflexivity. Qed.

Example scenario_unknown_node :
  Backend.ResolveNodeDetail
    {| cluster_nodes := smallCluster; cluster_namespaces := [];
       cluster_pods := [samplePod "a" "w1"]; cluster_deployments := [];
       cluster_services := [] |} "w9"
  = Backend.NotFound.
Proof. vm_compute. reflexivity. Qed.

Example scenario_single_master_no_edges :
  createNetwork true [sampleNode "m1" "master"]
  = Created {| network_nodes := [visNode (sampleNode "m1" "master")];
               network_edges := [] |}.
Proof. vm_compute. reflexivity. Qed.

(** * Further properties of the components *)

(** ** Vertex styling *)

(** X1: the colouring agrees with the legend: a vertex is red exactly when
    its node is not 'Ready', blue exactly when a 'Ready' master, green
    exactly when a 'Ready' node of any other role; the border follows the
    same three cases, and the level is 0 for masters and 1 otherwise. *)
Theorem vertex_colours_follow_legend (n : Node) :
  (background (visNode n) = "#f44336" ↔ status n ≠ "Ready") ∧
  (background (visNode n) = "#2196f3" ↔ status n = "Ready" ∧ role n = "master") ∧
  (background (visNode n) = "#4caf50" ↔ status n = "Ready" ∧ role n ≠ "master") ∧
  (border (visNode n) = "#c62828" ↔ status n ≠ "Ready") ∧
  (border (visNode n) = "#1565c0" ↔ status n = "Ready" ∧ role n = "master") ∧
  (border (visNode n) = "#2e7d32" ↔ status n = "Ready" ∧ role n ≠ "master") ∧
  (level (visNode n) = 0 ↔ role n = "master") ∧
  (level (visNode n) = 1 ↔ role n ≠ "master").
Proof.
  unfold visNode. simpl.
  destruct (decide (role n = "master")) as [Hr|Hr];
    destruct (decide (status n = "Ready")) as [Hs|Hs];
    rewrite ?(bool_decide_true _ Hr), ?(bool_decide_false _ Hr),
            ?(bool_decide_true _ Hs), ?(bool_decide_false _ Hs);
    split_and!; split; try done; try (intros [? ?]; done).
Qed.

(** ** Edges and vertices *)

(** X3: every edge of the graph starts and ends at the id of a vertex of
    the same graph. *)
Theorem edges_join_existing_vertices (nodes : list Node) (es : list VisEdge)
    (e : VisEdge) :
  visEdges nodes = Some es → e ∈ es →
  from e ∈ (id <$> visNodes nodes) ∧ to e ∈ (id <$> visNodes nodes).
Proof.
  intros Hes He.
  assert (Hid : id <$> visNodes nodes = name <$> nodes)
    by (unfold visNodes; by rewrite <- list_fmap_compose).
  rewrite Hid. split.
  - destruct (incident_tier nodes es e (from e) Hes He) as (x & Hx & <- & _);
      [by left|]. by apply list_elem_of_fmap_2.
  - destruct (incident_tier nodes es e (to e) Hes He) as (x & Hx & <- & _);
      [by right|]. by apply list_elem_of_fmap_2.
Qed.

Lemma edges_join_existing_vertices_witness :
  from (masterEdge (sampleNode "m1" "master") (sampleNode "w2" "worker"))
    ∈ (id <$> visNodes smallCluster).
Proof.
  apply (edges_join_existing_vertices smallCluster
           [masterEdge (sampleNode "m1" "master") (sampleNode "w1" "worker");
            masterEdge (sampleNode "m1" "master") (sampleNode "w2" "worker")]).
  - vm_compute. reflexivity.
  - right. left.
Defined.

Lemma chainOf_covers (ws : list Node) (w : Node) :
  1 < length ws → w ∈ ws → ∃ e, e ∈ chainOf ws ∧ incident (name w) e.
Proof.
  intros Hlen (i & Hi)%list_elem_of_lookup_1.
  destruct (decide (i + 1 < length ws)) as [Hlt|Hge].
  - destruct (lookup_lt_is_Some_2 ws (i + 1) Hlt) as [b Hb].
    exists (chainEdge w b). split; [|by left].
    eapply list_elem_of_lookup_2. by apply chainOf_lookup.
  - assert (Hil : i < length ws) by (by eapply lookup_lt_Some).
    destruct i as [|i]; [lia|].
    destruct (lookup_lt_is_Some_2 ws i) as [a Ha]; [lia|].
    exists (chainEdge a w). split; [|by right].
    eapply list_elem_of_lookup_2. apply chainOf_lookup; [done|].
    by replace (i + 1) with (S i) by lia.
Qed.

(** X4: as soon as the graph has an edge at all, no master and no worker is
    left out: every node whose role is 'master' or 'worker' is an end of
    some edge. *)
Theorem tiers_fully_connected (nodes : list Node) (es : list VisEdge) (n : Node) :
  visEdges nodes = Some es → es ≠ [] →
  n ∈ nodes → role n = "master" ∨ role n = "worker" →
  ∃ e, e ∈ es ∧ incident (name n) e.
Proof.
  rewrite visEdges_cases. intros [= <-] Hne Hn Hrole.
  assert (HM : role n = "master" → n ∈ masterNodes nodes)
    by (intros; by apply masterNodes_spec).
  assert (HW : role n = "worker" → n ∈ workerNodes nodes)
    by (intros; by apply workerNodes_spec).
  destruct (masterNodes nodes) as [|m ms] eqn:EM;
    destruct (workerNodes nodes) as [|w ws] eqn:EW; try done.
  - destruct ws as [|w' ws]; [done|].
    destruct Hrole as [Hr|Hr]; [by apply HM, elem_of_nil in Hr|].
    apply chainOf_covers; [simpl; lia|auto].
  - destruct Hrole as [Hr|Hr].
    + exists (masterEdge n w). split; [|by left].
      apply elem_of_masterWorkerEdges. exists n, w. split_and!; [auto|left|done].
    + exists (masterEdge m n). split; [|by right].
      apply elem_of_masterWorkerEdges. exists m, n. split_and!; [left|auto|done].
Qed.

Lemma tiers_fully_connected_witness :
  ∃ e, e ∈ [masterEdge (sampleNode "m1" "master") (sampleNode "w1" "worker");
            masterEdge (sampleNode "m1" "master") (sampleNode "w2" "worker")]
       ∧ incident (name (sampleNode "w2" "worker")) e.
Proof.
  apply (tiers_fully_connected smallCluster _ (sampleNode "w2" "worker")).
  - vm_compute. reflexivity.
  - discriminate.
  - unfold smallCluster. right. right. left.
  - right. reflexivity.
Defined.

(** ** Hovering *)

Lemma findNode_Some (nodes : list Node) (nodeId : string) (n : Node) :
  findNode nodes nodeId = Some n → n ∈ nodes ∧ name n = nodeId.
Proof.
  unfold findNode. destruct (list_find _ nodes) as [[i x]|] eqn:Hf; [|done].
  intros [= <-]. apply list_find_Some in Hf as (Hi & Hname & _).
  split; [by eapply list_elem_of_lookup_2|done].
Qed.

Lemma findNode_elem (nodes : list Node) (x : Node) :
  x ∈ nodes → ∃ n, findNode nodes (name x) = Some n.
Proof.
  intros Hx. unfold findNode.
  destruct (list_find_elem_of (λ n, name n = name x) nodes x Hx eq_refl) as [[i n] ->].
  by exists n.
Qed.

(** X2: hovering a vertex of the created network always brings up a
    tooltip, for a node of the list that bears the vertex id; with pairwise
    distinct names it is the very node the vertex was built from.  An id
    borne by no node leaves the tooltip as it was. *)
Theorem hover_finds_vertex_node (nodes : list Node) (x y : Z) (t : Tooltip) :
  (∀ net v, createNetwork true nodes = Created net → v ∈ network_nodes net →
     ∃ n, tooltipRendered (onHoverNode nodes (id v) x y t) = Some n ∧
          n ∈ nodes ∧ name n = id v ∧
          (NoDup (name <$> nodes) → visNode n = v)) ∧
  (∀ nodeId, (∀ n, n ∈ nodes → name n ≠ nodeId) →
     onHoverNode nodes nodeId x y t = t).
Proof.
  split.
  - intros net v Hnet Hv.
    destruct (createNetwork_cases true nodes)
      as [[Hs _]|[[Ht _]|(net' & Hc & _ & _ & _ & Hvs & _)]]; [congruence..|].
    assert (net' = net) as -> by congruence.
    rewrite Hvs in Hv. apply list_elem_of_fmap in Hv as (x0 & -> & Hx0).
    destruct (findNode_elem nodes x0 Hx0) as [n Hn].
    exists n. unfold onHoverNode. simpl (id (visNode x0)). rewrite Hn.
    destruct (findNode_Some _ _ _ Hn) as [Hin Hname].
    split_and!; try done.
    intros Hnd. f_equal. by apply (NoDup_fmap_eq name nodes).
  - intros nodeId Hnone. unfold onHoverNode.
    destruct (findNode nodes nodeId) as [n|] eqn:Hn; [|done].
    destruct (findNode_Some _ _ _ Hn) as [Hin Hname]. by destruct (Hnone n Hin).
Qed.

(** ** The info bar *)

Lemma length_filter_split {A} (P : A → Prop) `{!∀ x, Decision (P x)} (l : list A) :
  length (filter P l) + length (filter (λ x, ¬ P x) l) = length l.
Proof.
  induction l as [|x l IH]; [done|].
  rewrite !filter_cons. destruct (decide (P x)) as [HP|HP].
  - rewrite decide_False by tauto. simpl. lia.
  - rewrite decide_True by done. simpl. lia.
Qed.

(** X5: the 'Ready' and 'Not Ready' counters of the info bar always add up
    to the total number of nodes: every node is counted in exactly one of
    the two, whatever its status string. *)
Theorem ready_counters_add_up (s : Topology.State) :
  Topology.ready_nodes (Topology.infoBar s)
  + Topology.not_ready_nodes (Topology.infoBar s)
  = Topology.total_nodes (Topology.infoBar s).
Proof. simpl. apply (length_filter_split (λ n, status n = "Ready")). Qed.

Lemma role_counters (l : list Node) :
  length (filter (λ n, role n = "master") l)
  + length (filter (λ n, role n = "worker") l)
  + length (filter (λ n, role n ≠ "master" ∧ role n ≠ "worker") l)
  = length l.
Proof.
  induction l as [|x l IH]; [done|].
  rewrite !filter_cons.
  destruct (decide (role x = "master")) as [Hm|Hm];
    destruct (decide (role x = "worker")) as [Hw|Hw].
  - congruence.
  - rewrite decide_False by tauto. simpl. lia.
  - rewrite decide_False by tauto. simpl. lia.
  - rewrite decide_True by tauto. simpl. lia.
Qed.

(** X6: the 'Masters' and 'Workers' counters never exceed the total; they
    add up to it exactly when every node's role is 'master' or 'worker',
    and otherwise fall short by the number of nodes with another role. *)
Theorem role_counters_add_up (s : Topology.State) :
  let bar := Topology.infoBar s in
  Topology.masters bar + Topology.workers bar
  + length (filter (λ n, role n ≠ "master" ∧ role n ≠ "worker") (Topology.nodes s))
  = Topology.total_nodes bar ∧
  (Topology.masters bar + Topology.workers bar ≤ Topology.total_nodes bar)%nat ∧
  (Topology.masters bar + Topology.workers bar = Topology.total_nodes bar ↔
   Forall (λ n, role n = "master" ∨ role n = "worker") (Topology.nodes s)).
Proof.
  simpl. pose proof (role_counters (Topology.nodes s)) as H.
  split_and!; [done|lia|]. split.
  - intros Heq.
    assert (Hz : length (filter (λ n, role n ≠ "master" ∧ role n ≠ "worker")
                           (Topology.nodes s)) = 0) by lia.
    apply nil_length_inv in Hz. apply Forall_forall. intros n Hn.
    destruct (decide (role n = "master")); [auto|].
    destruct (decide (role n = "worker")); [auto|].
    assert (Hin : n ∈ filter (λ n, role n ≠ "master" ∧ role n ≠ "worker")
                         (Topology.nodes s)) by (by apply list_elem_of_filter).
    rewrite Hz in Hin. by apply elem_of_nil in Hin.
  - intros Hall.
    assert (Hz : filter (λ n, role n ≠ "master" ∧ role n ≠ "worker")
                   (Topology.nodes s) = []).
    { apply elem_of_nil_inv. intros n [[Hm Hw] Hn]%list_elem_of_filter.
      rewrite Forall_forall in Hall. destruct (Hall n Hn); done. }
    rewrite Hz in H. simpl in H. lia.
Qed.

Lemma sumPods_Permutation (l k : list Node) : l ≡ₚ k → sumPods l = sumPods k.
Proof. induction 1; simpl; lia. Qed.

Lemma sumPods_nonneg (l : list Node) :
  Forall (λ n, (0 ≤ pods_on_node n)%Z) l → (0 ≤ sumPods l)%Z.
Proof. induction 1; simpl; lia. Qed.

Lemma safeInteger_range (z : Z) :
  (0 ≤ z)%Z → (z ≤ 2 ^ 53)%Z → Topology.safeInteger z = true.
Proof. intros H0 H1. unfold Topology.safeInteger. apply Z.leb_le. lia. Qed.

(** Non-negative counts whose sum stays within 2^53 are added exactly. *)
Lemma total_pods_exact (l : list Node) (acc : Z) :
  (0 ≤ acc)%Z → Forall (λ n, (0 ≤ pods_on_node n)%Z) l →
  (acc + sumPods l ≤ 2 ^ 53)%Z →
  fold_left (λ sum n, Topology.addNumber sum (pods_on_node n)) l (Some acc)
  = Some (acc + sumPods l)%Z.
Proof.
  intros Hacc Hall. revert acc Hacc.
  induction Hall as [|x l Hx Hall IH]; intros acc Hacc Hsum.
  - simpl. f_equal. lia.
  - pose proof (sumPods_nonneg l Hall) as Hl. simpl in Hsum.
    assert (Hstep : Topology.addNumber (Some acc) (pods_on_node x)
                    = Some (acc + pods_on_node x)%Z).
    { unfold Topology.addNumber. by rewrite !safeInteger_range by lia. }
    cbn [fold_left]. rewrite Hstep, IH by lia. simpl. f_equal. lia.
Qed.

(** X7: the counters of the info bar do not depend on the order of the
    node list: two lists that are permutations of each other give the same
    'Total Nodes', 'Masters', 'Workers', 'Ready' and 'Not Ready'; and when
    the pod counts are non-negative and their sum is at most 2^53, where
    the additions are exact, 'Total Pods' is that sum in either order, so
    the whole bar is the same. *)
Theorem info_bar_order_independent (s s' : Topology.State) :
  Topology.nodes s ≡ₚ Topology.nodes s' →
  Topology.refreshing s = Topology.refreshing s' →
  Topology.total_nodes (Topology.infoBar s) = Topology.total_nodes (Topology.infoBar s') ∧
  Topology.masters (Topology.infoBar s) = Topology.masters (Topology.infoBar s') ∧
  Topology.workers (Topology.infoBar s) = Topology.workers (Topology.infoBar s') ∧
  Topology.ready_nodes (Topology.infoBar s) = Topology.ready_nodes (Topology.infoBar s') ∧
  Topology.not_ready_nodes (Topology.infoBar s)
    = Topology.not_ready_nodes (Topology.infoBar s') ∧
  (Forall (λ n, (0 ≤ pods_on_node n)%Z) (Topology.nodes s) →
   (sumPods (Topology.nodes s) ≤ 2 ^ 53)%Z →
     Topology.total_pods (Topology.infoBar s) = Some (sumPods (Topology.nodes s)) ∧
     Topology.infoBar s = Topology.infoBar s').
Proof.
  intros Hperm Hr. simpl. split_and!; try (by rewrite Hperm).
  intros Hall Hsum.
  assert (Hall' : Forall (λ n, (0 ≤ pods_on_node n)%Z) (Topology.nodes s'))
    by (by rewrite <- Hperm).
  assert (Hsum' : (sumPods (Topology.nodes s') ≤ 2 ^ 53)%Z)
    by (by rewrite <- (sumPods_Permutation _ _ Hperm)).
  unfold Topology.infoBar.
  rewrite (total_pods_exact (Topology.nodes s) 0), (total_pods_exact (Topology.nodes s') 0)
    by (done || lia).
  rewrite <- (sumPods_Permutation _ _ Hperm), Hr. split; [f_equal; lia|].
  f_equal; by rewrite Hperm.
Qed.

Lemma info_bar_order_independent_witness :
  Topology.total_pods (Topology.infoBar (showing smallCluster)) = Some 0%Z ∧
  Topology.infoBar (showing smallCluster) = Topology.infoBar (showing (reverse smallCluster)).
Proof.
  apply (info_bar_order_independent (showing smallCluster) (showing (reverse smallCluster))).
  - simpl. by rewrite reverse_Permutation.
  - reflexivity.
  - unfold showing, smallCluster. simpl.
    repeat (apply Forall_cons; split; [simpl; lia|]). apply Forall_nil_2.
  - vm_compute. discriminate.
Defined.

(** ** Loading and refreshing the topology *)

(** X8: a load that resolves shows the fetched data whatever came before:
    an earlier error is cleared, the empty view appears exactly for an
    empty result, and otherwise the topology view with the refresh button
    enabled. *)
Theorem resolved_load_shows_data (s : Topology.State) (nodeData : list Node) :
  let s' := Topology.loadClusterData s (Topology.Resolved nodeData) in
  Topology.nodes s' = nodeData ∧ Topology.error s' = None ∧
  Topology.render s' =
    match nodeData with
    | [] => Topology.EmptyView
    | _ :: _ => Topology.TopologyView (Topology.infoBar (showing nodeData))
    end ∧
  (refreshOffered s' = true ↔ nodeData ≠ []).
Proof.
  simpl. unfold refreshOffered, Topology.render. simpl.
  destruct nodeData as [|n ns]; simpl; split_and!; done.
Qed.

(** X9: while a refresh is pending the topology view stays on screen with
    the same counters, only its refresh button is disabled. *)
Theorem pending_refresh_keeps_view (s : Topology.State) (bar : Topology.InfoBar) :
  Topology.render s = Topology.TopologyView bar →
  Topology.render (Topology.loadClusterData_start s)
    = Topology.TopologyView (disableRefresh bar) ∧
  refreshOffered (Topology.loadClusterData_start s) = false.
Proof.
  unfold refreshOffered, Topology.render. simpl.
  destruct (Topology.loading s); [discriminate|].
  destruct (truthy (Topology.error s)); [discriminate|].
  destruct (bool_decide (length (Topology.nodes s) = 0)); [discriminate|].
  intros [= <-]. done.
Qed.

Lemma pending_refresh_keeps_view_witness :
  refreshOffered (Topology.loadClusterData_start (showing smallCluster)) = false.
Proof.
  apply (pending_refresh_keeps_view (showing smallCluster)
           (Topology.infoBar (showing smallCluster))).
  reflexivity.
Defined.

Lemma refreshOffered_inv (s : Topology.State) :
  refreshOffered s = true →
  Topology.rendersNodes (Topology.render s) = true ∧ Topology.refreshing s = false.
Proof.
  unfold refreshOffered.
  destruct (Topology.render s) as [| | |bar] eqn:Hr; try discriminate.
  intros Hb. split; [done|].
  unfold Topology.render in Hr.
  destruct (Topology.loading s); [discriminate|].
  destruct (truthy (Topology.error s)); [discriminate|].
  destruct (bool_decide (length (Topology.nodes s) = 0)); [discriminate|].
  injection Hr as <-. simpl in Hb. by destruct (Topology.refreshing s).
Qed.

(** X10: in every state the component reaches after mounting, a request is
    pending either during the first load, when nothing has been stored
    yet, or on top of a displayed, non-empty topology without error; and
    once the first load has settled, the loading view never comes back. *)
Theorem pending_request_invariant (s : Topology.State) :
  reachable s →
  (Topology.loading s = true →
     Topology.nodes s = [] ∧ Topology.error s = None ∧ Topology.refreshing s = true) ∧
  (Topology.loading s = false → Topology.refreshing s = true →
     truthy (Topology.error s) = false ∧ Topology.nodes s ≠ []) ∧
  (Topology.loading s = false →
     ∀ s', lifecycle s s' → Topology.loading s' = false).
Proof.
  intros Hreach.
  assert (Hstay : Topology.loading s = false →
            ∀ s', lifecycle s s' → Topology.loading s' = false).
  { intros Hl s' Hstep. destruct Hstep; simpl; done. }
  induction Hreach as [|s s' Hreach IH Hstep].
  - split_and!; try done.
  - split_and!; [| |done].
    + destruct Hstep as [s Hoff|s o Hpend]; simpl; [|discriminate].
      apply refreshOffered_inv in Hoff as [Hshow _].
      apply topology_renders_nodes_iff in Hshow as (Hl & _). congruence.
    + destruct Hstep as [s Hoff|s o Hpend]; simpl; [|discriminate].
      apply refreshOffered_inv in Hoff as [Hshow _].
      apply topology_renders_nodes_iff in Hshow as (_ & _ & Hne). done.
Qed.

Lemma pending_request_invariant_witness :
  Topology.nodes (Topology.loadClusterData_start Topology.initial) = [] ∧
  Topology.error (Topology.loadClusterData_start Topology.initial) = None ∧
  Topology.refreshing (Topology.loadClusterData_start Topology.initial) = true.
Proof.
  apply (pending_request_invariant (Topology.loadClusterData_start Topology.initial)).
  - apply reachable_mount.
  - reflexivity.
Defined.

(** X11: once a load has settled, the only thing that can happen next is a
    refresh started from the topology view; the error view and the empty
    view offer no refresh, so the component stays in them. *)
Theorem error_and_empty_views_are_final (s : Topology.State) (o : Topology.Outcome) :
  let s' := Topology.loadClusterData_settle s o in
  (∀ s'', lifecycle s' s'' →
     Topology.rendersNodes (Topology.render s') = true ∧
     s'' = Topology.loadClusterData_start s') ∧
  (Topology.rendersNodes (Topology.render s') = false → ∀ s'', ¬ lifecycle s' s'').
Proof.
  intros s'.
  assert (H : ∀ s'', lifecycle s' s'' →
            Topology.rendersNodes (Topology.render s') = true ∧
            s'' = Topology.loadClusterData_start s').
  { intros s'' Hstep. inversion Hstep as [t Hoff Ht|t o' Hpend Ht]; subst.
    - apply refreshOffered_inv in Hoff as [Hshow _]. done.
    - subst s'. simpl in Hpend. discriminate. }
  split; [exact H|].
  intros Hno s'' Hstep. destruct (H s'' Hstep) as [Hyes _]. congruence.
Qed.

(** ** Contents of the detail panel *)

(** X12: a pod item never shows an empty IP: the pod's own IP when it has
    one, and 'N/A' otherwise. *)
Theorem pod_ip_never_blank (pod : Pod) :
  Detail.item_ip (Detail.podItem pod) ≠ "" ∧
  (ip pod ≠ "" → Detail.item_ip (Detail.podItem pod) = ip pod) ∧
  (ip pod = "" → Detail.item_ip (Detail.podItem pod) = "N/A").
Proof.
  simpl. destruct (String.eqb_spec (ip pod) "") as [He|Hne]; split_and!; done.
Qed.

(** X13: the panel has a pods section exactly when the node carries a
    non-empty list of pod details, and then one item per pod, in order; it
    has a labels section exactly when the node has a label; and it has one
    address row per address. *)
Theorem optional_sections (n : Node) :
  (Detail.pods_section (Detail.nodeContent n) = None ↔
     pods_details n = None ∨ pods_details n = Some []) ∧
  (∀ items, Detail.pods_section (Detail.nodeContent n) = Some items →
     ∃ ps, pods_details n = Some ps ∧ ps ≠ [] ∧
           items = Detail.podItem <$> ps ∧ length items = length ps) ∧
  (Detail.labels_section (Detail.nodeContent n) = None ↔ labels n = ∅) ∧
  (∀ ls, Detail.labels_section (Detail.nodeContent n) = Some ls → ls = labels n) ∧
  length (Detail.address_rows (Detail.nodeContent n)) = length (addresses n).
Proof.
  simpl. split_and!.
  - destruct (pods_details n) as [[|p ps]|]; simpl; split; try done; auto.
    intros [?|?]; done.
  - intros items. destruct (pods_details n) as [[|p ps]|]; simpl; try done.
    intros [= <-]. exists (p :: ps). split_and!; try done.
    simpl. by rewrite length_fmap.
  - case_bool_decide as Hsz; split; try done.
    + intros Hempty. rewrite Hempty, map_size_empty in Hsz. lia.
    + intros _. apply map_size_empty_iff. lia.
  - intros ls. case_bool_decide; [by intros [= <-]|done].
  - by rewrite length_fmap.
Qed.

(** ** Selecting, closing and reopening *)

Lemma truthy_Some (nodeName : string) : nodeName ≠ "" → truthy (Some nodeName) = true.
Proof. intros H. simpl. by destruct (String.eqb_spec nodeName ""). Qed.

Lemma handleNodeClick_other (s : App.State) (nodeName : string) :
  nodeName ≠ "" → Some nodeName ≠ App.selectedNode s →
  App.handleNodeClick nodeName s
  = {| App.selectedNode := Some nodeName;
       App.detail := Detail.loadNodeDetails_start (App.detail s) |}.
Proof.
  intros Hname Hdiff. unfold App.handleNodeClick, App.setSelectedNode.
  rewrite decide_False by done.
  unfold Detail.onNodeName. by rewrite (truthy_Some _ Hname).
Qed.

(** X14: selecting another node and getting its details shows exactly
    these details, with neither the loading nor an error banner, whatever
    the panel held before (an earlier error included). *)
Theorem fresh_details_shown_clean (s : App.State) (nodeName : string) (data : Node) :
  nodeName ≠ "" → Some nodeName ≠ App.selectedNode s →
  App.view (App.settle (Detail.Resolved data) (App.handleNodeClick nodeName s))
  = Some {| Detail.loading_banner := false; Detail.error_banner := None;
            Detail.content := Some (Detail.nodeContent data) |}.
Proof.
  intros Hname Hdiff. rewrite handleNodeClick_other by done.
  unfold App.view, App.settle, Detail.render. cbn [App.selectedNode App.detail].
  by rewrite (truthy_Some _ Hname).
Qed.

Lemma fresh_details_shown_clean_witness :
  App.view (App.settle (Detail.Resolved (sampleNode "w1" "worker"))
              (App.handleNodeClick "w1" App.initial))
  = Some {| Detail.loading_banner := false; Detail.error_banner := None;
            Detail.content := Some (Detail.nodeContent (sampleNode "w1" "worker")) |}.
Proof.
  apply (fresh_details_shown_clean App.initial "w1" (sampleNode "w1" "worker")).
  - discriminate.
  - discriminate.
Defined.

(** X15: a request that failed is not retried by clicking the same node
    again: the click changes nothing, the error stays and nothing is
    loading; neither does a click on the empty canvas. *)
Theorem no_retry_on_same_node (s : App.State) (nodeName : string) (err : Thrown)
    (others : list string) :
  nodeName ≠ "" → Some nodeName ≠ App.selectedNode s →
  let failed := App.settle (Detail.Rejected err) (App.handleNodeClick nodeName s) in
  App.onNetworkClick (nodeName :: others) failed = failed ∧
  App.onNetworkClick [] failed = failed ∧
  Detail.loading (App.detail failed) = false ∧
  Detail.error (App.detail failed)
    = Some (caughtMessage "Failed to load node details" err) ∧
  Detail.node (App.detail failed) = Detail.node (App.detail s).
Proof.
  intros Hname Hdiff. cbv zeta. rewrite handleNodeClick_other by done.
  split_and!; try done.
  unfold App.onNetworkClick, App.handleNodeClick, App.setSelectedNode. simpl.
  by rewrite decide_True.
Qed.

Lemma no_retry_on_same_node_witness :
  let failed := App.settle (Detail.Rejected (ErrorObject "Network Error"))
                  (App.handleNodeClick "w1" App.initial) in
  App.onNetworkClick ["w1"] failed = failed.
Proof.
  apply (no_retry_on_same_node App.initial "w1" (ErrorObject "Network Error") []).
  - discriminate.
  - discriminate.
Defined.

Lemma handleCloseDetail_open (s : App.State) :
  App.selectedNode s ≠ None →
  App.handleCloseDetail s
  = {| App.selectedNode := None;
       App.detail := {| Detail.node := None;
                        Detail.loading := Detail.loading (App.detail s);
                        Detail.error := Detail.error (App.detail s) |} |}.
Proof.
  intros Hsel. unfold App.handleCloseDetail, App.setSelectedNode.
  rewrite decide_False by done. reflexivity.
Qed.

(** X16: closing the panel clears the stored node, so a panel that is
    closed and then opened on a node starts empty: only the loading banner,
    no details of the node shown before and no old error. *)
Theorem reopen_starts_empty (s : App.State) (nodeName : string) :
  App.selectedNode s ≠ None → nodeName ≠ "" →
  App.view (App.handleCloseDetail s) = None ∧
  Detail.node (App.detail (App.handleCloseDetail s)) = None ∧
  App.view (App.handleNodeClick nodeName (App.handleCloseDetail s))
  = Some {| Detail.loading_banner := true; Detail.error_banner := None;
            Detail.content := None |}.
Proof.
  intros Hsel Hname. rewrite handleCloseDetail_open by done.
  rewrite handleNodeClick_other by done.
  unfold App.view, Detail.render. cbn [App.selectedNode App.detail].
  by rewrite (truthy_Some _ Hname).
Qed.

Lemma reopen_starts_empty_witness :
  App.view (App.handleNodeClick "w2"
              (App.handleCloseDetail
                 (App.settle (Detail.Resolved (sampleNode "w1" "worker"))
                    (App.handleNodeClick "w1" App.initial))))
  = Some {| Detail.loading_banner := true; Detail.error_banner := None;
            Detail.content := None |}.
Proof.
  apply (reopen_starts_empty
           (App.settle (Detail.Resolved (sampleNode "w1" "worker"))
              (App.handleNodeClick "w1" App.initial)) "w2").
  - discriminate.
  - discriminate.
Defined.

(** X17: a response that arrives after the panel was closed is not
    discarded: it is stored while nothing is shown, and the next node that
    is opened appears with these stale details under its loading banner. *)
Theorem late_response_resurfaces (s : App.State) (data : Node) (nodeName : string) :
  App.selectedNode s = None → nodeName ≠ "" →
  let late := App.settle (Detail.Resolved data) s in
  App.view late = None ∧
  App.view (App.handleNodeClick nodeName late)
  = Some {| Detail.loading_banner := true; Detail.error_banner := None;
            Detail.content := Some (Detail.nodeContent data) |}.
Proof.
  intros Hsel Hname. cbv zeta.
  rewrite handleNodeClick_other by (simpl; rewrite ?Hsel; done).
  unfold App.view, App.settle, Detail.render. cbn [App.selectedNode App.detail].
  rewrite Hsel, (truthy_Some _ Hname). done.
Qed.

Lemma late_response_resurfaces_witness :
  let late := App.settle (Detail.Resolved (sampleNode "w1" "worker"))
                (App.handleCloseDetail (App.handleNodeClick "w1" App.initial)) in
  App.view late = None ∧
  App.view (App.handleNodeClick "w2" late)
  = Some {| Detail.loading_banner := true; Detail.error_banner := None;
            Detail.content := Some (Detail.nodeContent (sampleNode "w1" "worker")) |}.
Proof.
  apply (late_response_resurfaces
           (App.handleCloseDetail (App.handleNodeClick "w1" App.initial))
           (sampleNode "w1" "worker") "w2").
  - reflexivity.
  - discriminate.
Defined.

(** ** Labels in the tooltip *)

(** X18: the tooltip accounts for every label: it lists the first ten
    entries, in order, and the '+k more' line appears exactly when there
    are more than ten, with k the number of entries left out. *)
Theorem tooltip_labels_account (entries : list (string * string)) :
  (tooltipLabels entries).1 `prefix_of` entries ∧
  length (tooltipLabels entries).1 = length entries `min` 10 ∧
  length (tooltipLabels entries).1 + default 0 (tooltipLabels entries).2
    = length entries ∧
  ((tooltipLabels entries).2 = None ↔ (length entries ≤ 10)%nat) ∧
  (∀ k, (tooltipLabels entries).2 = Some k →
     0 < k ∧ drop 10 entries ≠ [] ∧ k = length (drop 10 entries)).
Proof.
  unfold tooltipLabels. cbn [fst snd]. split_and!.
  - apply prefix_take.
  - rewrite length_take. lia.
  - rewrite length_take. case_bool_decide; cbn [from_option]; unfold Datatypes.id; lia.
  - case_bool_decide; split; intros; (done || lia).
  - intros k. case_bool_decide as Hlen; [|done]. intros [= <-].
    split_and!; [lia| |by rewrite length_drop].
    intros Hnil. apply (f_equal length) in Hnil.
    rewrite length_drop in Hnil. simpl in Hnil. lia.
Qed.

(** ** Edge cases of the selection *)

(** X19: a node whose name is the empty string cannot be inspected:
    clicking it shows no panel and starts no request, from any state. *)
Theorem empty_name_opens_nothing (s : App.State) (others : list string) :
  let s' := App.onNetworkClick ("" :: others) s in
  App.view s' = None ∧
  Detail.loading (App.detail s') = Detail.loading (App.detail s) ∧
  Detail.error (App.detail s') = Detail.error (App.detail s).
Proof.
  cbv zeta. unfold App.onNetworkClick, App.handleNodeClick, App.setSelectedNode.
  destruct (decide (Some "" = App.selectedNode s)) as [Heq|Hne].
  - unfold App.view. rewrite <- Heq. done.
  - done.
Qed.

(** X20: responses are not matched against the current selection: when the
    selection moves from one node to another while the first request is
    still pending, the first response is shown under the second selection
    and takes the loading banner away although the second request is still
    out. *)
Theorem first_response_shown_under_second_selection
    (s : App.State) (a b : string) (dataA : Node) :
  a ≠ "" → b ≠ "" → a ≠ b → Some a ≠ App.selectedNode s →
  let s' := App.settle (Detail.Resolved dataA)
              (App.handleNodeClick b (App.handleNodeClick a s)) in
  App.selectedNode s' = Some b ∧
  App.view s' = Some {| Detail.loading_banner := false; Detail.error_banner := None;
                        Detail.content := Some (Detail.nodeContent dataA) |}.
Proof.
  intros Ha Hb Hab Hsel. cbv zeta.
  rewrite (handleNodeClick_other s a) by done.
  rewrite handleNodeClick_other by (try done; simpl; congruence).
  unfold App.view, App.settle, Detail.render. cbn [App.selectedNode App.detail].
  by rewrite (truthy_Some _ Hb).
Qed.

Lemma first_response_shown_under_second_selection_witness :
  App.view (App.settle (Detail.Resolved (sampleNode "w1" "worker"))
              (App.handleNodeClick "w2" (App.handleNodeClick "w1" App.initial)))
  = Some {| Detail.loading_banner := false; Detail.error_banner := None;
            Detail.content := Some (Detail.nodeContent (sampleNode "w1" "worker")) |}.
Proof.
  apply (first_response_shown_under_second_selection App.initial "w1" "w2"
           (sampleNode "w1" "worker")); discriminate.
Defined.
